(** * Consultation-report web application (myapp.py)

    A shallow embedding of the Flask application in [myapp.py]: the two
    custom validators, the [ConsultationForm] schema with its validator
    chains, the handlers [index], [send_report] and [generate_pdf], and the
    library functions those rely on ([secure_filename], [safe_join],
    [posixpath.normpath], [os.path.join], [str.isdigit], [str.strip], the
    regular expression of the name fields).

    Conventions.
    - A Python [str] is a list of Unicode code points ([N]); byte strings
      are lists of byte values.  Messages fixed by the program are Rocq
      strings.
    - The file system is a finite map from resolved locations to file
      contents.  Relative paths are resolved against the application root,
      which is taken to be the working directory of the process; every
      directory named on a path is taken to exist and there are no symbolic
      links, so resolution is lexical, and opening a file for writing
      succeeds.  The operating system is POSIX ([os.sep] is "/",
      [os.path.altsep] is [None]).
    - The form page (index.html) is represented by the errors it shows; the
      report template and the PDF engine are parameters that may raise.
    - Character properties follow the Unicode Character Database 14.0.0 (the
      one CPython 3.11 ships). *)

From Stdlib Require Import NArith ZArith List String Ascii Bool Lia DecimalN.
From stdpp Require Import base option list gmap.

Local Open Scope N_scope.

(** ** Text *)

Definition char := N.
Definition str := list char.
Definition bytes := list N.

(** The code points of an ASCII literal. *)
Definition u (s : string) : str := map N_of_ascii (list_ascii_of_string s).

Definition str_eqb (a b : str) : bool := bool_decide (a = b).

Definition in_ranges (c : char) (rs : list (N * N)) : bool :=
  existsb (fun r => (fst r <=? c) && (c <=? snd r)) rs.

Definition is_ascii (c : char) : bool := c <? 128.
Definition is_ascii_digit (c : char) : bool := (48 <=? c) && (c <=? 57).
Definition is_ascii_upper (c : char) : bool := (65 <=? c) && (c <=? 90).
Definition is_ascii_lower (c : char) : bool := (97 <=? c) && (c <=? 122).
Definition is_ascii_letter (c : char) : bool := is_ascii_upper c || is_ascii_lower c.

(** [str.isspace] on one character; the class [\s] of [re] on [str]
    patterns is the same set. *)
Definition whitespace_ranges : list (N * N) :=
  [ (0x9, 0xd); (0x1c, 0x20); (0x85, 0x85); (0xa0, 0xa0); (0x1680, 0x1680);
    (0x2000, 0x200a); (0x2028, 0x2029); (0x202f, 0x202f); (0x205f, 0x205f);
    (0x3000, 0x3000) ].

Definition is_whitespace (c : char) : bool := in_ranges c whitespace_ranges.

(** Characters with Numeric_Type Digit or Decimal: those [str.isdigit]
    accepts. *)
Definition isdigit_ranges : list (N * N) :=
  [ (0x30, 0x39); (0xb2, 0xb3); (0xb9, 0xb9); (0x660, 0x669); (0x6f0, 0x6f9);
    (0x7c0, 0x7c9); (0x966, 0x96f); (0x9e6, 0x9ef); (0xa66, 0xa6f);
    (0xae6, 0xaef); (0xb66, 0xb6f); (0xbe6, 0xbef); (0xc66, 0xc6f);
    (0xce6, 0xcef); (0xd66, 0xd6f); (0xde6, 0xdef); (0xe50, 0xe59);
    (0xed0, 0xed9); (0xf20, 0xf29); (0x1040, 0x1049); (0x1090, 0x1099);
    (0x1369, 0x1371); (0x17e0, 0x17e9); (0x1810, 0x1819); (0x1946, 0x194f);
    (0x19d0, 0x19da); (0x1a80, 0x1a89); (0x1a90, 0x1a99); (0x1b50, 0x1b59);
    (0x1bb0, 0x1bb9); (0x1c40, 0x1c49); (0x1c50, 0x1c59); (0x2070, 0x2070);
    (0x2074, 0x2079); (0x2080, 0x2089); (0x2460, 0x2468); (0x2474, 0x247c);
    (0x2488, 0x2490); (0x24ea, 0x24ea); (0x24f5, 0x24fd); (0x24ff, 0x24ff);
    (0x2776, 0x277e); (0x2780, 0x2788); (0x278a, 0x2792); (0xa620, 0xa629);
    (0xa8d0, 0xa8d9); (0xa900, 0xa909); (0xa9d0, 0xa9d9); (0xa9f0, 0xa9f9);
    (0xaa50, 0xaa59); (0xabf0, 0xabf9); (0xff10, 0xff19); (0x104a0, 0x104a9);
    (0x10a40, 0x10a43); (0x10d30, 0x10d39); (0x10e60, 0x10e68);
    (0x11052, 0x1105a); (0x11066, 0x1106f); (0x110f0, 0x110f9);
    (0x11136, 0x1113f); (0x111d0, 0x111d9); (0x112f0, 0x112f9);
    (0x11450, 0x11459); (0x114d0, 0x114d9); (0x11650, 0x11659);
    (0x116c0, 0x116c9); (0x11730, 0x11739); (0x118e0, 0x118e9);
    (0x11950, 0x11959); (0x11c50, 0x11c59); (0x11d50, 0x11d59);
    (0x11da0, 0x11da9); (0x16a60, 0x16a69); (0x16ac0, 0x16ac9);
    (0x16b50, 0x16b59); (0x1d7ce, 0x1d7ff); (0x1e140, 0x1e149);
    (0x1e2f0, 0x1e2f9); (0x1e950, 0x1e959); (0x1f100, 0x1f10a);
    (0x1fbf0, 0x1fbf9) ].

(** Characters of general category Nd (Numeric_Type Decimal): those
    [str.isdecimal] accepts, the decimal digits of every script. *)
Definition isdecimal_ranges : list (N * N) :=
  [ (0x30, 0x39); (0x660, 0x669); (0x6f0, 0x6f9); (0x7c0, 0x7c9);
    (0x966, 0x96f); (0x9e6, 0x9ef); (0xa66, 0xa6f); (0xae6, 0xaef);
    (0xb66, 0xb6f); (0xbe6, 0xbef); (0xc66, 0xc6f); (0xce6, 0xcef);
    (0xd66, 0xd6f); (0xde6, 0xdef); (0xe50, 0xe59); (0xed0, 0xed9);
    (0xf20, 0xf29); (0x1040, 0x1049); (0x1090, 0x1099); (0x17e0, 0x17e9);
    (0x1810, 0x1819); (0x1946, 0x194f); (0x19d0, 0x19d9); (0x1a80, 0x1a89);
    (0x1a90, 0x1a99); (0x1b50, 0x1b59); (0x1bb0, 0x1bb9); (0x1c40, 0x1c49);
    (0x1c50, 0x1c59); (0xa620, 0xa629); (0xa8d0, 0xa8d9); (0xa900, 0xa909);
    (0xa9d0, 0xa9d9); (0xa9f0, 0xa9f9); (0xaa50, 0xaa59); (0xabf0, 0xabf9);
    (0xff10, 0xff19); (0x104a0, 0x104a9); (0x10d30, 0x10d39);
    (0x11066, 0x1106f); (0x110f0, 0x110f9); (0x11136, 0x1113f);
    (0x111d0, 0x111d9); (0x112f0, 0x112f9); (0x11450, 0x11459);
    (0x114d0, 0x114d9); (0x11650, 0x11659); (0x116c0, 0x116c9);
    (0x11730, 0x11739); (0x118e0, 0x118e9); (0x11950, 0x11959);
    (0x11c50, 0x11c59); (0x11d50, 0x11d59); (0x11da0, 0x11da9);
    (0x16a60, 0x16a69); (0x16ac0, 0x16ac9); (0x16b50, 0x16b59);
    (0x1d7ce, 0x1d7ff); (0x1e140, 0x1e149); (0x1e2f0, 0x1e2f9);
    (0x1e950, 0x1e959); (0x1fbf0, 0x1fbf9) ].

Definition is_digit_char (c : char) : bool := in_ranges c isdigit_ranges.
Definition is_decimal_char (c : char) : bool := in_ranges c isdecimal_ranges.

(** [str.isdigit]: every character is a digit and there is at least one. *)
Definition isdigit (s : str) : bool :=
  match s with
  | [] => false
  | _ => forallb is_digit_char s
  end.

(** [str.strip()] with no argument removes whitespace at both ends. *)
Fixpoint lstrip (p : char -> bool) (s : str) : str :=
  match s with
  | c :: s' => if p c then lstrip p s' else s
  | [] => []
  end.

Definition rstrip (p : char -> bool) (s : str) : str := rev (lstrip p (rev s)).
Definition strip_chars (p : char -> bool) (s : str) : str := rstrip p (lstrip p s).
Definition strip (s : str) : str := strip_chars is_whitespace s.

Fixpoint startswith (p s : str) : bool :=
  match p, s with
  | [], _ => true
  | a :: p', b :: s' => (a =? b) && startswith p' s'
  | _ :: _, [] => false
  end.

Definition endswith (s p : str) : bool := startswith (rev p) (rev s).

(** [needle in hay] for the fixed messages. *)
Fixpoint mentions (hay needle : string) : bool :=
  String.prefix needle hay ||
  match hay with
  | String _ hay' => mentions hay' needle
  | EmptyString => false
  end.

(** Decimal rendering, as [%d] prints a non-negative integer, and zero
    padding to a width, as [%04d] and [%02d] do. *)
Fixpoint uint_digits (d : Decimal.uint) : str :=
  match d with
  | Decimal.Nil => []
  | Decimal.D0 d' => 48 :: uint_digits d'
  | Decimal.D1 d' => 49 :: uint_digits d'
  | Decimal.D2 d' => 50 :: uint_digits d'
  | Decimal.D3 d' => 51 :: uint_digits d'
  | Decimal.D4 d' => 52 :: uint_digits d'
  | Decimal.D5 d' => 53 :: uint_digits d'
  | Decimal.D6 d' => 54 :: uint_digits d'
  | Decimal.D7 d' => 55 :: uint_digits d'
  | Decimal.D8 d' => 56 :: uint_digits d'
  | Decimal.D9 d' => 57 :: uint_digits d'
  end.

Definition decimal (n : N) : str := uint_digits (N.to_uint n).

Definition zero_padded (width : nat) (n : N) : str :=
  let ds := decimal n in
  repeat 48 (width - length ds)%nat ++ ds.

(** ** Dates ([datetime.date]) *)

Record date := mkdate { year : N; month : N; day : N }.

(** [a > b] on dates compares (year, month, day). *)
Definition date_gt (a b : date) : bool :=
  (year b <? year a) ||
  ((year a =? year b) &&
   ((month b <? month a) || ((month a =? month b) && (day b <? day a)))).

(** [str(d)], which is what an f-string prints: [d.isoformat()]. *)
Definition date_str (d : date) : str :=
  zero_padded 4 (year d) ++ u "-" ++ zero_padded 2 (month d) ++ u "-" ++
  zero_padded 2 (day d).

(** The proleptic Gregorian calendar of [datetime]: which triples are dates,
    and the day number [date.toordinal] gives them. *)
Definition is_leap (y : N) : bool :=
  (y mod 4 =? 0) && (negb (y mod 100 =? 0) || (y mod 400 =? 0)).

Definition days_in_month (y m : N) : N :=
  if m =? 2 then (if is_leap y then 29 else 28)
  else if (m =? 4) || (m =? 6) || (m =? 9) || (m =? 11) then 30
  else 31.

Definition days_before_year (y : N) : N :=
  let p := y - 1 in p * 365 + p / 4 - p / 100 + p / 400.

Fixpoint days_before_month_aux (y : N) (k : nat) : N :=
  match k with
  | O => 0
  | S k' => days_before_month_aux y k' + days_in_month y (N.of_nat k)
  end.

Definition days_before_month (y m : N) : N :=
  days_before_month_aux y (N.to_nat (m - 1)).

Definition toordinal (d : date) : N :=
  days_before_year (year d) + days_before_month (year d) (month d) + day d.

(** The day of the year. *)
Definition yday (d : date) : N := days_before_month (year d) (month d) + day d.

Definition valid_date (d : date) : bool :=
  (1 <=? year d) && (year d <=? 9999) &&
  (1 <=? month d) && (month d <=? 12) &&
  (1 <=? day d) && (day d <=? days_in_month (year d) (month d)).

(** ** Validators (wtforms) *)

Inductive exn :=
| TypeError
| ValueError
| AttributeError
| TemplateError
| RenderingError
| OSError.

(** What a call of a validator ends in: it returns, or raises
    [ValidationError] or [StopValidation], or some other exception that the
    validation chain does not catch. *)
Inductive signal :=
| Passed
| ValidationError (msg : string)
| StopValidation (msg : string)
| Uncaught (e : exn).

(** A validator sees [field.data] and may rewrite [field.errors]. *)
Definition validator (D : Type) := D -> list string -> list string * signal.

Definition check {D : Type} (f : D -> signal) : validator D :=
  fun data errors => (errors, f data).

(** [Field._run_validation_chain]: a [ValidationError] is recorded and the
    chain goes on; a [StopValidation] is recorded (when it carries a message)
    and ends the chain; anything else propagates. *)
Fixpoint run_validation_chain {D : Type} (validators : list (validator D))
    (data : D) (errors : list string) : exn + list string :=
  match validators with
  | [] => inr errors
  | v :: rest =>
      let '(errors, s) := v data errors in
      match s with
      | Passed => run_validation_chain rest data errors
      | ValidationError msg => run_validation_chain rest data (errors ++ [msg])
      | StopValidation msg =>
          inr (if String.eqb msg "" then errors else errors ++ [msg])
      | Uncaught e => inl e
      end
  end.

(** [Field.validate]: the errors start as the processing errors. *)
Definition field_validate {D : Type} (validators : list (validator D))
    (data : D) (process_errors : list string) : exn + list string :=
  run_validation_chain validators data process_errors.

Definition required_msg : string := "This field is required.".

(** [DataRequired] on a text field: the data must be truthy and, being a
    string, not blank.  On failure it empties [field.errors] and stops. *)
Definition DataRequired_str : validator (option str) :=
  fun data errors =>
    match data with
    | Some (c :: s) =>
        match strip (c :: s) with
        | [] => ([], StopValidation required_msg)
        | _ => (errors, Passed)
        end
    | _ => ([], StopValidation required_msg)
    end.

(** The text [DataRequired] rejects: none, or nothing but whitespace. *)
Definition blank (data : option str) : bool :=
  match data with
  | Some s => forallb is_whitespace s
  | None => true
  end.

(** [DataRequired] on a date field: a [date] object is always truthy. *)
Definition DataRequired_date : validator (option date) :=
  fun data errors =>
    match data with
    | Some _ => (errors, Passed)
    | None => ([], StopValidation required_msg)
    end.

(** [field.data > datetime.datetime.today().date()]: the comparison is
    defined between dates; with [None] on the left it raises [TypeError]. *)
Definition py_gt_date (data : option date) (today : date) : exn + bool :=
  match data with
  | Some d => inr (date_gt d today)
  | None => inl TypeError
  end.

Definition future_msg : string := "Date of birth cannot be in the future.".
Definition invalid_format_msg : string :=
  "Invalid date format. Please use YYYY-MM-DD.".

(** [isinstance(exc, ValueError)] for what a validator raises: the
    [ValidationError] of wtforms is a subclass of [ValueError]
    ([StopValidation] is not). *)
Definition is_ValueError (s : signal) : bool :=
  match s with
  | ValidationError _ => true
  | Uncaught ValueError => true
  | _ => false
  end.

(** The body of the [try] statement of [validate_date_not_above_current]. *)
Definition date_not_above_current_body (today : date) (data : option date)
    : signal :=
  match py_gt_date data today with
  | inr true => ValidationError future_msg
  | inr false => Passed
  | inl e => Uncaught e
  end.

(** [try: ... except ValueError as exc: raise ValidationError(...) from exc]. *)
Definition validate_date_not_above_current (today : date) (data : option date)
    : signal :=
  let outcome := date_not_above_current_body today data in
  if is_ValueError outcome then ValidationError invalid_format_msg
  else outcome.

Definition numbers_only_msg : string := "This field should contain numbers only.".

(** [field.data.isdigit()]; on [None] the attribute lookup raises. *)
Definition validate_numbers_only (data : option str) : signal :=
  match data with
  | Some s =>
      if negb (isdigit s) then ValidationError numbers_only_msg else Passed
  | None => Uncaught AttributeError
  end.

(** [Regexp(r"^[a-zA-Z\s]*$", message=...)].  The pattern is matched at the
    start of [field.data or ""]: at each position either [$] holds (the end
    of the string, or just before a newline that ends it), or one character
    of the class is consumed. *)
Definition name_class (c : char) : bool := is_ascii_letter c || is_whitespace c.

Definition at_dollar (s : str) : bool :=
  match s with
  | [] => true
  | [c] => c =? 10
  | _ => false
  end.

Fixpoint name_re_match (s : str) : bool :=
  at_dollar s ||
  match s with
  | c :: s' => name_class c && name_re_match s'
  | [] => false
  end.

Definition Regexp_name (message : string) (data : option str) : signal :=
  if name_re_match (default [] data) then Passed else ValidationError message.

(** ** Paths ([posixpath]) *)

Definition slash : char := 47.
Definition dot : str := [46].
Definition dotdot : str := [46; 46].

(** [s.split(sep)] for a one-character separator. *)
Fixpoint split_on (sep : char) (s : str) : list str :=
  match s with
  | [] => [[]]
  | c :: s' =>
      if c =? sep then [] :: split_on sep s'
      else match split_on sep s' with
           | w :: ws => (c :: w) :: ws
           | [] => [[c]]
           end
  end.

(** [sep.join(parts)]. *)
Fixpoint join_with (sep : str) (parts : list str) : str :=
  match parts with
  | [] => []
  | [p] => p
  | p :: ps => p ++ sep ++ join_with sep ps
  end.

(** [os.path.join(a, b)]. *)
Definition path_join (a b : str) : str :=
  if startswith [slash] b then b
  else if str_eqb a [] || endswith a [slash] then a ++ b
  else a ++ [slash] ++ b.

(** [os.path.basename]. *)
Definition basename (p : str) : str := List.last (split_on slash p) [].

(** The loop of [posixpath.normpath] over the components; [new_comps] is
    kept with its last element first. *)
Definition normpath_step (initial_slashes : N) (new_comps : list str) (comp : str)
    : list str :=
  if str_eqb comp [] || str_eqb comp dot then new_comps
  else if negb (str_eqb comp dotdot)
          || ((initial_slashes =? 0) && bool_decide (new_comps = []))
          || match new_comps with
             | top :: _ => str_eqb top dotdot
             | [] => false
             end
       then comp :: new_comps
       else match new_comps with
            | _ :: below => below
            | [] => new_comps
            end.

Definition normpath (path : str) : str :=
  match path with
  | [] => dot
  | _ =>
      let initial_slashes : N :=
        if startswith [slash] path then
          if startswith [slash; slash] path
             && negb (startswith [slash; slash; slash] path)
          then 2 else 1
        else 0 in
      let comps := split_on slash path in
      let new_comps := fold_left (normpath_step initial_slashes) comps [] in
      let path := join_with [slash] (rev new_comps) in
      let path := repeat slash (N.to_nat initial_slashes) ++ path in
      match path with
      | [] => dot
      | _ => path
      end
  end.

(** [werkzeug.security.safe_join(directory, filename)] with one untrusted
    name; there are no alternative separators on POSIX. *)
Definition safe_join (directory filename : str) : option str :=
  let directory := match directory with [] => dot | _ => directory end in
  let filename := match filename with [] => [] | _ => normpath filename end in
  if startswith [slash] filename
     || str_eqb filename dotdot
     || startswith (dotdot ++ [slash]) filename
  then None
  else Some (path_join directory filename).

(** ** The file system *)

(** A resolved location: whether it hangs from the root directory, and the
    names leading to it (from the root, or else from the application root,
    where a leading [..] steps out of it). *)
Definition location := (bool * list str)%type.

Definition resolve_step (absolute : bool) (stack : list str) (comp : str) : list str :=
  if str_eqb comp [] || str_eqb comp dot then stack
  else if str_eqb comp dotdot then
    match stack with
    | [] => if absolute then [] else [dotdot]
    | top :: below => if str_eqb top dotdot then comp :: stack else below
    end
  else comp :: stack.

(** Pathname resolution: names are looked up left to right, [.] stays and
    [..] goes to the parent. *)
Definition resolve (path : str) : location :=
  let absolute := startswith [slash] path in
  (absolute, rev (fold_left (resolve_step absolute) (split_on slash path) [])).

(** The location is the directory [dir] of the application root, or lies
    below it. *)
Definition within (dir : str) (l : location) : bool :=
  match l with
  | (false, d :: _) => str_eqb d dir
  | _ => false
  end.

(** A name proper: not empty, not [.], not [..], and without a slash. *)
Definition plain (c : str) : Prop :=
  c <> [] /\ c <> dot /\ c <> dotdot /\ ~ In slash c.

(** How the stack of [normpath] (on a relative path) and the stack of the
    resolution below [base] go together: as long as no [..] has stepped out,
    the second is the first on top of [base]; after [k] steps out, the first
    holds [k] times [..] at its bottom and the second one fewer. *)
Definition stacks_related (base : str) (nstack rstack : list str) : Prop :=
  exists names k,
    Forall plain names
    /\ nstack = names ++ repeat dotdot k
    /\ rstack = names ++ match k with
                         | O => [base]
                         | S k' => repeat dotdot k'
                         end.

Definition UPLOAD_FOLDER : str := u "uploads/".
Definition upload_dir : str := u "uploads".

(** Handlers run against the file system and may raise. *)
Definition M (A : Type) : Type := gmap location bytes -> (exn + A) * gmap location bytes.

Definition ret {A : Type} (a : A) : M A := fun fs => (inr a, fs).
Definition raise {A : Type} (e : exn) : M A := fun fs => (inl e, fs).
Definition bind {A B : Type} (m : M A) (k : A -> M B) : M B :=
  fun fs =>
    match m fs with
    | (inr a, fs') => k a fs'
    | (inl e, fs') => (inl e, fs')
    end.

Notation "x <- m ;; k" := (bind m (fun x => k))
  (at level 100, m at next level, right associativity).
Notation "m ;;; k" := (bind m (fun _ => k))
  (at level 100, right associativity).

(** [open(path, "wb").write(data)]. *)
Definition write_file (path : str) (data : bytes) : M unit :=
  fun fs => (inr tt, <[resolve path := data]> fs).

Definition isfile (path : str) : M bool :=
  fun fs => (inr (bool_decide (is_Some (fs !! resolve path))), fs).

Definition read_file (path : str) : M bytes :=
  fun fs =>
    match fs !! resolve path with
    | Some data => (inr data, fs)
    | None => (inl OSError, fs)
    end.

(** ** Uploaded files and [secure_filename] (werkzeug) *)

Record FileStorage := { filename : str; stream : bytes }.

Section App.

(** The Unicode tables and the two engines the application calls are taken
    as given:
    - [unicode_nfkd c] is the compatibility decomposition of a non-ASCII
      character [c];
    - [unicode_lower s] is [s.lower()] for a string [s] that is not pure
      ASCII;
    - [render_report form clinic_logo timestamp ip] is
      [render_template("report.html", ...)], which may raise;
    - [weasyprint html fs] is the PDF that [HTML(string=html)] renders to
      (it may fetch what the document links to), or the exception it raises. *)
Variable unicode_nfkd : char -> str.
Variable unicode_lower : str -> str.

Definition ascii_lower (c : char) : char := if is_ascii_upper c then c + 32 else c.

(** [s.lower()]. *)
Definition lower (s : str) : str :=
  if forallb is_ascii s then map ascii_lower s else unicode_lower s.

(** [unicodedata.normalize("NFKD", s).encode("ascii", "ignore").decode("ascii")]:
    the ASCII characters of the decompositions, in order (the canonical
    reordering that ends normalization only moves combining marks, none of
    which is ASCII). *)
Definition ascii_ignore (s : str) : str :=
  List.filter is_ascii
    (flat_map (fun c => if is_ascii c then [c] else unicode_nfkd c) s).

(** [s.replace(old, new)] for a one-character [old]. *)
Definition replace_char (old : char) (new : str) (s : str) : str :=
  flat_map (fun c => if c =? old then new else [c]) s.

(** [s.split()]: the maximal runs of characters that are not whitespace;
    [word] holds the run being read, last character first. *)
Fixpoint split_whitespace_from (word : str) (s : str) : list str :=
  match s with
  | [] => match word with [] => [] | _ => [rev word] end
  | c :: s' =>
      if is_whitespace c then
        match word with
        | [] => split_whitespace_from [] s'
        | _ => rev word :: split_whitespace_from [] s'
        end
      else split_whitespace_from (c :: word) s'
  end.

Definition split_whitespace (s : str) : list str := split_whitespace_from [] s.

(** The characters [_filename_ascii_strip_re] ("[^A-Za-z0-9_.-]") leaves. *)
Definition filename_char (c : char) : bool :=
  is_ascii_letter c || is_ascii_digit c || (c =? 95) || (c =? 46) || (c =? 45).

Definition dot_or_underscore (c : char) : bool := (c =? 46) || (c =? 95).

Definition secure_filename (filename : str) : str :=
  let filename := ascii_ignore filename in
  let filename := replace_char slash (u " ") filename in
  strip_chars dot_or_underscore
    (List.filter filename_char
       (join_with (u "_") (split_whitespace filename))).

(** ** The form ([ConsultationForm]) *)

(** What [DateField.process_formdata] makes of the submitted value with the
    format "%Y-%m-%d": nothing was submitted, [strptime] rejected the text,
    or it gave a date. *)
Inductive date_input :=
| NoValue
| NotADate (raw : str)
| Parsed (d : date).

(** The field data of a bound form, one entry per field of the class.  The
    logo field is the [FileField] of wtforms, whose data is the value posted
    under its name: the [FileStorage] of the upload, or [None] when no file
    part came under that name. *)
Record ConsultationForm := {
  clinic_name : option str;
  clinic_logo : option FileStorage;
  physician_name : option str;
  patient_contact : option str;
  patient_first_name : option str;
  patient_last_name : option str;
  patient_dob : date_input;
  physician_contact : option str;
  chief_complaint : option str;
  consultation_note : option str
}.

Definition date_data (i : date_input) : option date :=
  match i with
  | Parsed d => Some d
  | _ => None
  end.

Definition date_process_errors (i : date_input) : list string :=
  match i with
  | NotADate _ => ["Not a valid date value."%string]
  | _ => []
  end.

(** [FileRequired()]. *)
Definition FileRequired (data : option FileStorage) : signal :=
  match data with
  | Some file =>
      match filename file with
      | [] => StopValidation required_msg
      | _ => Passed
      end
  | None => StopValidation required_msg
  end.

(** [FileAllowed(upload_set, message)]: with no file it lets the field be;
    otherwise the lower-cased file name must end in a dot and one of the
    extensions. *)
Definition FileAllowed (upload_set : list str) (message : string)
    (data : option FileStorage) : signal :=
  match data with
  | Some file =>
      match filename file with
      | [] => Passed
      | _ =>
          if existsb (fun x => endswith (lower (filename file)) (u "." ++ x)) upload_set
          then Passed
          else StopValidation message
      end
  | None => Passed
  end.

Definition allowed_extensions : list str := [u "jpg"; u "png"].

(** The lower-cased file name ends in ".jpg" or ".png". *)
Definition has_allowed_extension (name : str) : bool :=
  existsb (fun x => endswith (lower name) (u "." ++ x))
          allowed_extensions.

Definition physician_name_msg : string :=
  "Physician name must contain characters only.".
Definition patient_first_name_msg : string :=
  "Patient first name must contain characters only.".
Definition patient_last_name_msg : string :=
  "Patient last name must contain characters only.".

(** The validator chain of each field, as the class declares them. *)
Definition clinic_name_validators : list (validator (option str)) :=
  [DataRequired_str].
Definition clinic_logo_validators : list (validator (option FileStorage)) :=
  [check FileRequired; check (FileAllowed allowed_extensions "Images only!")].
Definition physician_name_validators : list (validator (option str)) :=
  [DataRequired_str; check (Regexp_name physician_name_msg)].
Definition patient_contact_validators : list (validator (option str)) :=
  [DataRequired_str; check validate_numbers_only].
Definition patient_first_name_validators : list (validator (option str)) :=
  [DataRequired_str; check (Regexp_name patient_first_name_msg)].
Definition patient_last_name_validators : list (validator (option str)) :=
  [DataRequired_str; check (Regexp_name patient_last_name_msg)].
Definition patient_dob_validators (today : date) : list (validator (option date)) :=
  [DataRequired_date; check (validate_date_not_above_current today)].
Definition physician_contact_validators : list (validator (option str)) :=
  [DataRequired_str; check validate_numbers_only].
Definition chief_complaint_validators : list (validator (option str)) :=
  [DataRequired_str].
Definition consultation_note_validators : list (validator (option str)) :=
  [DataRequired_str].

(** The errors of every field, in the order of the class; the CSRF token
    field that [FlaskForm] adds comes last. *)
Definition field_errors (today : date) (csrf_error : option string)
    (form : ConsultationForm) : list (string * (exn + list string)) :=
  [ ("clinic_name"%string,
     field_validate clinic_name_validators (clinic_name form) []);
    ("clinic_logo"%string,
     field_validate clinic_logo_validators (clinic_logo form) []);
    ("physician_name"%string,
     field_validate physician_name_validators (physician_name form) []);
    ("patient_contact"%string,
     field_validate patient_contact_validators (patient_contact form) []);
    ("patient_first_name"%string,
     field_validate patient_first_name_validators (patient_first_name form) []);
    ("patient_last_name"%string,
     field_validate patient_last_name_validators (patient_last_name form) []);
    ("patient_dob"%string,
     field_validate (patient_dob_validators today)
       (date_data (patient_dob form)) (date_process_errors (patient_dob form)));
    ("physician_contact"%string,
     field_validate physician_contact_validators (physician_contact form) []);
    ("chief_complaint"%string,
     field_validate chief_complaint_validators (chief_complaint form) []);
    ("consultation_note"%string,
     field_validate consultation_note_validators (consultation_note form) []);
    ("csrf_token"%string,
     inr (match csrf_error with Some msg => [msg] | None => [] end)) ].

(** [form.errors]: the fields that have errors, with them; the first
    exception a validator lets through ends the validation. *)
Fixpoint collect_errors (results : list (string * (exn + list string)))
    : exn + list (string * list string) :=
  match results with
  | [] => inr []
  | (name, inl e) :: _ => inl e
  | (name, inr errors) :: rest =>
      match collect_errors rest with
      | inl e => inl e
      | inr others =>
          inr (match errors with
               | [] => others
               | _ => (name, errors) :: others
               end)
      end
  end.

Definition form_errors (today : date) (csrf_error : option string)
    (form : ConsultationForm) : exn + list (string * list string) :=
  collect_errors (field_errors today csrf_error form).

(** ** Requests, responses and the handlers *)

Variable render_report : ConsultationForm -> str -> str -> str -> exn + str.
Variable weasyprint : str -> gmap location bytes -> exn + bytes.

Inductive http_method := GET | POST.

(** A request to "/": the method, the bound form, the message with which
    Flask-WTF rejects the CSRF token (if it does), [request.base_url],
    [request.remote_addr], and the two readings of the clock taken while the
    request is served ([datetime.today().date()] and the formatted
    [datetime.now()]). *)
Record request := {
  method : http_method;
  posted : ConsultationForm;
  csrf_error : option string;
  base_url : str;
  remote_addr : str;
  clock_today : date;
  clock_now : str
}.

Inductive response :=
| FormPage (errors : list (string * list string))   (* 200, index.html *)
| Attachment (download_name : str) (body : bytes)   (* 200, a download *)
| FileResponse (body : bytes)                       (* 200, a stored file *)
| NotFound                                          (* 404 *)
| InternalServerError (e : exn).                    (* 500 *)

(** How an f-string prints field data. *)
Definition format_str (data : option str) : str := default (u "None") data.
Definition format_date (data : option date) : str :=
  default (u "None") (date_str <$> data).

(** [FileStorage.save(dst)]. *)
Definition save (file : FileStorage) (dst : str) : M unit :=
  write_file dst (stream file).

(** [HTML(string=html).write_pdf(target)]: the document is rendered, then
    written. *)
Definition write_pdf (html : str) (target : str) : M unit :=
  fun fs =>
    match weasyprint html fs with
    | inr pdf => write_file target pdf fs
    | inl e => (inl e, fs)
    end.

(** [send_file(path, as_attachment=True)]. *)
Definition send_file (path : str) : M response :=
  body <- read_file path ;;
  ret (Attachment (basename path) body).

(** The name built by the f-string of [generate_pdf]. *)
Definition report_filename (form : ConsultationForm) : str :=
  u "CR_" ++ format_str (patient_last_name form) ++ u "_" ++
  format_str (patient_first_name form) ++ u "_" ++
  format_date (date_data (patient_dob form)) ++ u ".pdf".

Definition generate_pdf (req : request) (form : ConsultationForm) : M response :=
  let client_ip := remote_addr req in
  let filepath :=
    let filename := report_filename form in
    path_join UPLOAD_FOLDER (secure_filename filename) in
  let timestamp := clock_now req in
  match clinic_logo form with
  | None => raise AttributeError
  | Some logo =>
      let clinic_logo_path := u "uploads/" ++ filename logo in
      save logo clinic_logo_path ;;;
      let full_logo_path := base_url req ++ u "/" ++ clinic_logo_path in
      match render_report form full_logo_path timestamp client_ip with
      | inl e => raise e
      | inr rendered_html =>
          write_pdf rendered_html filepath ;;;
          send_file filepath
      end
  end.

(** [form.validate_on_submit()], with the errors it leaves on the form. *)
Definition validate_on_submit (req : request)
    : exn + (bool * list (string * list string)) :=
  match method req with
  | POST =>
      match form_errors (clock_today req) (csrf_error req) (posted req) with
      | inr errors => inr (bool_decide (errors = []), errors)
      | inl e => inl e
      end
  | GET => inr (false, [])
  end.

Definition index (req : request) : M response :=
  let form := posted req in
  match validate_on_submit req with
  | inr (true, _) => generate_pdf req form
  | inr (false, errors) => ret (FormPage errors)
  | inl e => raise e
  end.

(** [send_from_directory(directory, path)]: 404 unless the joined path is
    safe and names a file. *)
Definition send_from_directory (directory path : str) : M response :=
  match safe_join directory path with
  | None => ret NotFound
  | Some p =>
      found <- isfile p ;;
      if found : bool then body <- read_file p ;; ret (FileResponse body)
      else ret NotFound
  end.

Definition send_report (path : str) : M response :=
  send_from_directory (u "uploads") path.

Definition get_template (path : str) : M response :=
  send_from_directory (u "templates") path.

(** Flask answers an exception no handler catches with status 500. *)
Definition serve (handler : M response) (fs : gmap location bytes)
    : response * gmap location bytes :=
  match handler fs with
  | (inr r, fs') => (r, fs')
  | (inl e, fs') => (InternalServerError e, fs')
  end.

End App.

(** ** What a submission must satisfy *)


(** The number a string of ASCII digits is the numeral of, as [int(s)]
    reads it. *)
Fixpoint digits_uint (s : str) : Decimal.uint :=
  match s with
  | [] => Decimal.Nil
  | c :: s' =>
      (if c =? 48 then Decimal.D0 else if c =? 49 then Decimal.D1
       else if c =? 50 then Decimal.D2 else if c =? 51 then Decimal.D3
       else if c =? 52 then Decimal.D4 else if c =? 53 then Decimal.D5
       else if c =? 54 then Decimal.D6 else if c =? 55 then Decimal.D7
       else if c =? 56 then Decimal.D8 else Decimal.D9) (digits_uint s')
  end.

Definition digits_value (s : str) : N := N.of_uint (digits_uint s).

(** ** A sample submission *)

(** Stand-ins for the Unicode tables on the ASCII range, where they are never
    consulted, and for the two engines. *)
Definition sample_nfkd : char -> str := fun _ => [].
Definition sample_lower : str -> str := fun s => s.

Definition sample_logo_bytes : bytes := [137; 80; 78; 71].
Definition sample_pdf_bytes : bytes := [37; 80; 68; 70].

Definition sample_html (clinic_logo : str) : str :=
  u "<html><img src='" ++ clinic_logo ++ u "'></html>".

Definition sample_render : ConsultationForm -> str -> str -> str -> exn + str :=
  fun _ clinic_logo _ _ => inr (sample_html clinic_logo).

Definition sample_pdf_engine : str -> gmap location bytes -> exn + bytes :=
  fun _ _ => inr sample_pdf_bytes.

Definition failing_pdf_engine : str -> gmap location bytes -> exn + bytes :=
  fun _ _ => inl RenderingError.

(** A filled-in form for Jane Smith, with the physician name, the name of
    the logo file and the date of birth left open. *)
Definition sample_form_with (physician logo_name : str) (dob : date_input)
    : ConsultationForm :=
  {| clinic_name := Some (u "Lakeside Clinic");
     clinic_logo := Some {| filename := logo_name; stream := sample_logo_bytes |};
     physician_name := Some physician;
     patient_contact := Some (u "5550100");
     patient_first_name := Some (u "Jane");
     patient_last_name := Some (u "Smith");
     patient_dob := dob;
     physician_contact := Some (u "5550101");
     chief_complaint := Some (u "<p>Cough</p>");
     consultation_note := Some (u "<p>Rest</p>") |}.

(** The same, born 2020-01-01. *)
Definition sample_form (physician logo_name : str) : ConsultationForm :=
  sample_form_with physician logo_name (Parsed (mkdate 2020 1 1)).

Definition sample_request (form : ConsultationForm) : request :=
  {| method := POST;
     posted := form;
     csrf_error := None;
     base_url := u "http://localhost:5000/";
     remote_addr := u "127.0.0.1";
     clock_today := mkdate 2026 11 4;
     clock_now := u "2026-11-04 12:00:00" |}.


(** A filled-in form for another patient. *)
Definition sample_patient_form (last first : str) (dob : date)
    : ConsultationForm :=
  {| clinic_name := Some (u "Lakeside Clinic");
     clinic_logo := Some {| filename := u "logo.png"; stream := sample_logo_bytes |};
     physician_name := Some (u "John Doe");
     patient_contact := Some (u "5550100");
     patient_first_name := Some first;
     patient_last_name := Some last;
     patient_dob := Parsed dob;
     physician_contact := Some (u "5550101");
     chief_complaint := Some (u "<p>Cough</p>");
     consultation_note := Some (u "<p>Rest</p>") |}.

(** * Properties *)

(** ** The calendar: comparing dates is comparing days *)

Local Ltac euclid := Z.to_euclidean_division_equations; lia.

Lemma days_before_year_succ (y : N) :
  1 <= y ->
  days_before_year (y + 1) =
  days_before_year y + 365 + (if is_leap y then 1 else 0).
Proof.
  intros Hy. unfold days_before_year, is_leap.
  replace (y + 1 - 1) with y by lia.
  destruct (N.eqb_spec (y mod 4) 0) as [H4|H4];
    destruct (N.eqb_spec (y mod 100) 0) as [H100|H100];
    destruct (N.eqb_spec (y mod 400) 0) as [H400|H400];
    cbn [andb orb negb]; zify; euclid.
Qed.

Lemma days_before_year_mono (a b : N) :
  a <= b -> days_before_year a <= days_before_year b.
Proof.
  intros H. unfold days_before_year.
  assert (Hpq : a - 1 <= b - 1) by lia.
  generalize dependent (b - 1). generalize (a - 1). clear a b H.
  intros p q Hpq.
  destruct (N.eq_dec p q) as [-> | Hne]; [lia|].
  assert (p / 4 <= q / 4) by (zify; euclid).
  assert (p / 400 <= q / 400) by (zify; euclid).
  assert (p / 100 <= p / 4) by (zify; euclid).
  assert (q / 100 <= q / 4) by (zify; euclid).
  assert (q / 100 <= p / 100 + (q - p)) by (zify; euclid).
  lia.
Qed.

Lemma month_cases (m : N) :
  1 <= m <= 12 ->
  m = 1 \/ m = 2 \/ m = 3 \/ m = 4 \/ m = 5 \/ m = 6 \/
  m = 7 \/ m = 8 \/ m = 9 \/ m = 10 \/ m = 11 \/ m = 12.
Proof. lia. Qed.

Lemma valid_date_inv (d : date) :
  valid_date d = true ->
  1 <= year d <= 9999 /\ 1 <= month d <= 12 /\
  1 <= day d <= days_in_month (year d) (month d).
Proof.
  unfold valid_date. rewrite !andb_true_iff, !N.leb_le. tauto.
Qed.

Local Ltac months m H :=
  destruct (month_cases m H) as [->|[->|[->|[->|[->|[->|[->|[->|[->|[->|[->| ->]]]]]]]]]]].

Local Ltac calendar y :=
  unfold days_before_month, days_in_month in *;
  cbv -[is_leap N.add N.le N.lt] in *;
  generalize dependent (is_leap y); intros [|]; intros; lia.

Lemma yday_bounds (d : date) :
  valid_date d = true ->
  1 <= yday d <= 365 + (if is_leap (year d) then 1 else 0).
Proof.
  intros Hv. apply valid_date_inv in Hv as (_ & Hm & Hd).
  destruct d as [y m dd]. unfold yday. cbn [year month day] in *.
  months m Hm; calendar y.
Qed.

Lemma yday_mono (y m1 d1 m2 d2 : N) :
  valid_date (mkdate y m1 d1) = true ->
  valid_date (mkdate y m2 d2) = true ->
  m1 < m2 \/ (m1 = m2 /\ d1 < d2) ->
  yday (mkdate y m1 d1) < yday (mkdate y m2 d2).
Proof.
  intros H1 H2 Hlt.
  apply valid_date_inv in H1 as (_ & Hm1 & Hd1).
  apply valid_date_inv in H2 as (_ & Hm2 & Hd2).
  unfold yday. cbn [year month day] in *.
  months m1 Hm1; months m2 Hm2; calendar y.
Qed.

Lemma toordinal_mono (a b : date) :
  valid_date a = true -> valid_date b = true ->
  date_gt b a = true -> toordinal a < toordinal b.
Proof.
  intros Ha Hb Hgt.
  destruct a as [y1 m1 d1], b as [y2 m2 d2].
  unfold date_gt in Hgt. cbn [year month day] in Hgt.
  rewrite !orb_true_iff, !andb_true_iff, !orb_true_iff, !andb_true_iff,
    !N.ltb_lt, !N.eqb_eq in Hgt.
  unfold toordinal. cbn [year month day].
  destruct Hgt as [Hy | [Hy Hmd]].
  - pose proof (yday_bounds _ Ha) as Ba. pose proof (yday_bounds _ Hb) as Bb.
    unfold yday in Ba, Bb. cbn [year month day] in Ba, Bb.
    apply valid_date_inv in Ha as (Hy1 & _).
    cbn [year] in Hy1.
    pose proof (days_before_year_succ y1 (proj1 Hy1)) as Hs.
    pose proof (days_before_year_mono (y1 + 1) y2 ltac:(lia)) as Hm.
    lia.
  - subst y2.
    assert (Hyd : yday (mkdate y1 m1 d1) < yday (mkdate y1 m2 d2)).
    { apply yday_mono; [assumption | assumption | ].
      destruct Hmd as [? | [? ?]];
        [left; assumption | right; split; [congruence|assumption]]. }
    unfold yday in Hyd. cbn [year month day] in Hyd. lia.
Qed.

Lemma date_gt_total (a b : date) :
  date_gt a b = false -> a = b \/ date_gt b a = true.
Proof.
  destruct a as [y1 m1 d1], b as [y2 m2 d2]. unfold date_gt.
  cbn [year month day].
  destruct (N.ltb_spec y2 y1), (N.ltb_spec y1 y2), (N.eqb_spec y1 y2),
    (N.eqb_spec y2 y1), (N.ltb_spec m2 m1), (N.ltb_spec m1 m2),
    (N.eqb_spec m1 m2), (N.eqb_spec m2 m1), (N.ltb_spec d2 d1),
    (N.ltb_spec d1 d2); cbn; intros; try discriminate; try (right; reflexivity);
    try lia.
  left. f_equal; lia.
Qed.

(** On dates, the comparison of the code is the order of the days. *)
Lemma date_gt_toordinal (a b : date) :
  valid_date a = true -> valid_date b = true ->
  date_gt a b = true <-> toordinal b < toordinal a.
Proof.
  intros Ha Hb. split.
  - apply toordinal_mono; assumption.
  - intros Hlt. destruct (date_gt a b) eqn:E; [reflexivity|].
    destruct (date_gt_total a b E) as [-> | Hgt]; [lia|].
    pose proof (toordinal_mono a b Ha Hb Hgt). lia.
Qed.

(** ** Text lemmas *)

Lemma forallb_rev {A : Type} (p : A -> bool) (l : list A) :
  forallb p (rev l) = forallb p l.
Proof.
  induction l as [|a l IH]; [reflexivity|].
  cbn [rev forallb]. rewrite forallb_app, IH. cbn. rewrite andb_true_r.
  apply andb_comm.
Qed.

Lemma lstrip_forallb (p : char -> bool) (s : str) :
  forallb p (lstrip p s) = forallb p s.
Proof.
  induction s as [|c s IH]; [reflexivity|].
  cbn [lstrip forallb]. destruct (p c) eqn:E; cbn [andb].
  - exact IH.
  - cbn [forallb]. rewrite E. reflexivity.
Qed.

Lemma lstrip_nil (p : char -> bool) (s : str) :
  lstrip p s = [] <-> forallb p s = true.
Proof.
  induction s as [|c s IH]; [cbn; tauto|].
  cbn [lstrip forallb]. destruct (p c); cbn [andb]; [exact IH|].
  split; discriminate.
Qed.

Lemma strip_chars_nil (p : char -> bool) (s : str) :
  strip_chars p s = [] <-> forallb p s = true.
Proof.
  unfold strip_chars, rstrip.
  rewrite <- (lstrip_forallb p s), <- (forallb_rev p (lstrip p s)), <- lstrip_nil.
  split.
  - intros H. apply (f_equal (@rev char)) in H. rewrite rev_involutive in H. exact H.
  - intros ->. reflexivity.
Qed.

(** What [lstrip] keeps does not start with a stripped character, and it is
    the input when the input does not. *)
Lemma lstrip_head (p : char -> bool) (s : str) (c : char) (t : str) :
  lstrip p s = c :: t -> p c = false.
Proof.
  induction s as [|a s IH]; [discriminate|].
  cbn [lstrip]. destruct (p a) eqn:E; [exact IH|].
  intros [= <- _]. exact E.
Qed.

Lemma lstrip_id (p : char -> bool) (c : char) (s : str) :
  p c = false -> lstrip p (c :: s) = c :: s.
Proof. intros H. cbn [lstrip]. rewrite H. reflexivity. Qed.

(** The regular expression of the name fields accepts exactly the strings of
    ASCII letters and whitespace. *)
Lemma name_re_match_forallb (s : str) : name_re_match s = forallb name_class s.
Proof.
  induction s as [|c s IH]; [reflexivity|].
  cbn [name_re_match forallb]. rewrite IH.
  destruct s as [|c' s]; cbn [at_dollar]; [|reflexivity].
  destruct (N.eqb_spec c 10) as [->|_]; reflexivity.
Qed.

Lemma DataRequired_str_spec (data : option str) (errors : list string) :
  DataRequired_str data errors =
  match data with
  | Some s =>
      if forallb is_whitespace s then ([], StopValidation required_msg)
      else (errors, Passed)
  | None => ([], StopValidation required_msg)
  end.
Proof.
  destruct data as [[|c s]|]; try reflexivity.
  unfold DataRequired_str, strip.
  destruct (forallb is_whitespace (c :: s)) eqn:E.
  - apply strip_chars_nil in E. rewrite E. reflexivity.
  - destruct (strip_chars is_whitespace (c :: s)) eqn:E'; [|reflexivity].
    apply strip_chars_nil in E'. congruence.
Qed.

Lemma forallb_false_witness {A : Type} (p : A -> bool) (l : list A) :
  forallb p l = false <-> exists a, In a l /\ p a = false.
Proof.
  induction l as [|a l IH]; cbn [forallb In].
  - split; [discriminate | intros (a & [] & _)].
  - rewrite andb_false_iff, IH. split.
    + intros [H | (b & Hb & Hp)]; eauto.
    + intros (b & [-> | Hb] & Hp); eauto.
Qed.

(** ** The date validator *)

(** C3.  For dates of the calendar, the validator fails on every date whose
    day comes strictly after today's and passes every date on or before
    today.  But the error it fails with is not the future-date error: the
    [ValidationError] raised in the [try] block is a [ValueError], the
    [except] clause catches it, and what leaves the validator, and ends on
    the date field, is "Invalid date format. Please use YYYY-MM-DD.". *)
Theorem C3_future_date_reported_as_invalid_format (today d : date)
    (Htoday : valid_date today = true) (Hd : valid_date d = true) :
  (toordinal today < toordinal d ->
     validate_date_not_above_current today (Some d)
       = ValidationError "Invalid date format. Please use YYYY-MM-DD."
     /\ field_validate (patient_dob_validators today) (date_data (Parsed d))
          (date_process_errors (Parsed d))
       = inr ["Invalid date format. Please use YYYY-MM-DD."%string])
  /\ (toordinal d <= toordinal today ->
     validate_date_not_above_current today (Some d) = Passed
     /\ field_validate (patient_dob_validators today) (date_data (Parsed d))
          (date_process_errors (Parsed d))
       = inr [])
  /\ validate_date_not_above_current today (Some d)
     <> ValidationError "Date of birth cannot be in the future.".
Proof.
  pose proof (date_gt_toordinal d today Hd Htoday) as Hiff.
  unfold field_validate, patient_dob_validators, check,
    validate_date_not_above_current, date_not_above_current_body.
  cbn [date_data date_process_errors run_validation_chain DataRequired_date
         py_gt_date].
  split; [|split].
  - intros Hcmp.
    assert (E : date_gt d today = true) by (apply Hiff; exact Hcmp).
    rewrite E. split; reflexivity.
  - intros Hcmp. destruct (date_gt d today) eqn:E.
    + apply proj1 in Hiff. specialize (Hiff eq_refl). lia.
    + split; reflexivity.
  - destruct (date_gt d today); discriminate.
Qed.

Lemma C3_future_date_reported_as_invalid_format_witness :
  validate_date_not_above_current (mkdate 2026 11 4) (Some (mkdate 2100 1 1))
    = ValidationError "Invalid date format. Please use YYYY-MM-DD."
  /\ validate_date_not_above_current (mkdate 2026 11 4) (Some (mkdate 2026 11 4))
    = Passed.
Proof.
  split.
  - refine (proj1 (proj1 (C3_future_date_reported_as_invalid_format
                            (mkdate 2026 11 4) (mkdate 2100 1 1) _ _) _));
      [reflexivity | reflexivity | vm_compute; reflexivity].
  - refine (proj1 (proj1 (proj2 (C3_future_date_reported_as_invalid_format
                            (mkdate 2026 11 4) (mkdate 2026 11 4) _ _)) _));
      [reflexivity | reflexivity | vm_compute; discriminate].
Defined.

(** ** The digits-only validator *)

Lemma in_ranges_below (lo : N) (rs : list (N * N)) (c : char) :
  forallb (fun r => lo <=? fst r) rs = true -> c < lo -> in_ranges c rs = false.
Proof.
  intros Hrs Hc. unfold in_ranges.
  induction rs as [|r rs IH]; [reflexivity|].
  cbn [forallb existsb] in *. apply andb_true_iff in Hrs as [Hr Hrs].
  apply N.leb_le in Hr. rewrite (IH Hrs), orb_false_r.
  apply andb_false_iff. left. apply N.leb_gt. lia.
Qed.

Lemma in_ranges_sub (rs rs' : list (N * N)) (c : char) :
  forallb (fun r => existsb (fun r' => (fst r' <=? fst r) && (snd r <=? snd r')) rs') rs
    = true ->
  in_ranges c rs = true -> in_ranges c rs' = true.
Proof.
  unfold in_ranges. rewrite forallb_forall, !existsb_exists.
  intros Hsub (r & Hr & Hc).
  pose proof (Hsub r Hr) as Hex. apply existsb_exists in Hex as (r' & Hr' & Hrr').
  exists r'. split; [exact Hr'|].
  rewrite !andb_true_iff, !N.leb_le in *. lia.
Qed.

Lemma ascii_digit_is_digit (c : char) :
  is_ascii_digit c = true -> is_digit_char c = true.
Proof.
  intros H. unfold is_digit_char, in_ranges, isdigit_ranges.
  cbn [existsb fst snd]. unfold is_ascii_digit in H. rewrite H. reflexivity.
Qed.

Lemma decimal_is_digit (c : char) :
  is_decimal_char c = true -> is_digit_char c = true.
Proof. apply in_ranges_sub. vm_compute. reflexivity. Qed.

(** Among the ASCII characters only 0-9 are digits. *)
Lemma ascii_digit_char (c : char) :
  is_ascii c = true -> is_digit_char c = is_ascii_digit c.
Proof.
  intros Hc. apply N.ltb_lt in Hc.
  unfold is_digit_char, isdigit_ranges.
  match goal with
  | |- in_ranges c (?r :: ?rs) = _ =>
      change (in_ranges c (r :: rs))
        with ((fst r <=? c) && (c <=? snd r) || in_ranges c rs);
      rewrite (in_ranges_below 128 rs c);
      [apply orb_false_r | vm_compute; reflexivity | exact Hc]
  end.
Qed.

Lemma isdigit_spec (s : str) :
  isdigit s = true <-> s <> [] /\ Forall (fun c => is_digit_char c = true) s.
Proof.
  rewrite List.Forall_forall. destruct s as [|c s].
  - cbn. split; [discriminate | intros [H _]; congruence].
  - unfold isdigit. rewrite forallb_forall. split.
    + intros H. split; [discriminate | exact H].
    + intros [_ H]. exact H.
Qed.

(** C5 (as amended).  The digits-only validator passes exactly the non-empty
    strings whose every character is a digit in the sense of [str.isdigit]
    (Numeric_Type Digit or Decimal); otherwise it raises its error.  So it
    fails on the empty string and on every string with a character that is
    not such a digit (among ASCII characters, anything but 0-9), and it
    passes every non-empty string of decimal digits, ASCII or not. *)
Theorem C5_numbers_only_passes_isdigit (s : str) :
  (validate_numbers_only (Some s) = Passed
     <-> s <> [] /\ Forall (fun c => is_digit_char c = true) s)
  /\ (validate_numbers_only (Some s) = Passed
      \/ validate_numbers_only (Some s)
         = ValidationError "This field should contain numbers only.")
  /\ validate_numbers_only (Some []) <> Passed
  /\ ((exists c, In c s /\ is_digit_char c = false) ->
      validate_numbers_only (Some s) <> Passed)
  /\ ((exists c, In c s /\ is_ascii c = true /\ is_ascii_digit c = false) ->
      validate_numbers_only (Some s) <> Passed)
  /\ (s <> [] -> Forall (fun c => is_ascii_digit c = true) s ->
      validate_numbers_only (Some s) = Passed)
  /\ (s <> [] -> Forall (fun c => is_decimal_char c = true) s ->
      validate_numbers_only (Some s) = Passed).
Proof.
  assert (Hiff : validate_numbers_only (Some s) = Passed
                 <-> s <> [] /\ Forall (fun c => is_digit_char c = true) s).
  { rewrite <- isdigit_spec. unfold validate_numbers_only.
    destruct (isdigit s); cbn [negb]; split; congruence. }
  assert (Hbad : (exists c, In c s /\ is_digit_char c = false) ->
                 validate_numbers_only (Some s) <> Passed).
  { intros (c & Hin & Hc) [_ Hall]%Hiff.
    rewrite List.Forall_forall in Hall. specialize (Hall c Hin). congruence. }
  split; [exact Hiff|].
  split.
  { unfold validate_numbers_only. destruct (isdigit s); cbn [negb]; auto. }
  split; [discriminate|].
  split; [exact Hbad|].
  split.
  { intros (c & Hin & Hascii & Hc). apply Hbad. exists c. split; [exact Hin|].
    rewrite ascii_digit_char by exact Hascii. exact Hc. }
  split; intros Hne Hall; apply Hiff; (split; [exact Hne|]);
    (eapply Forall_impl; [exact Hall|]).
  - apply ascii_digit_is_digit.
  - apply decimal_is_digit.
Qed.

(** C5 as stated fails on "²" (U+00B2, SUPERSCRIPT TWO): the
    validator passes it, and it is a decimal digit neither of ASCII nor of
    any other script. *)
Lemma C5_superscript_counterexample :
  ~ (forall s : str,
       validate_numbers_only (Some s) = Passed
       <-> s <> [] /\ Forall (fun c => is_decimal_char c = true) s)
  /\ ~ (forall s : str,
       validate_numbers_only (Some s) = Passed
       <-> s <> [] /\ Forall (fun c => is_ascii_digit c = true) s).
Proof.
  split; intros H; destruct (proj1 (H [0xb2]) eq_refl) as [_ Hall];
    inversion Hall as [|c l Hc Hl]; vm_compute in Hc; discriminate.
Qed.

(** C9.  The validator accepts whatever [str.isdigit] accepts; a contact of
    Arabic-Indic digits (U+0663 U+0664) or of superscript digits (U+00B2
    U+00B9) holds no ASCII digit and passes the whole chain of either
    contact field. *)
Theorem C9_numbers_only_accepts_unicode_digits :
  (forall s : str,
     validate_numbers_only (Some s)
     = if isdigit s then Passed
       else ValidationError "This field should contain numbers only.")
  /\ (existsb is_ascii_digit [0x663; 0x664] = false
      /\ validate_numbers_only (Some [0x663; 0x664]) = Passed
      /\ field_validate patient_contact_validators (Some [0x663; 0x664]) [] = inr []
      /\ field_validate physician_contact_validators (Some [0x663; 0x664]) [] = inr [])
  /\ (existsb is_ascii_digit [0xb2; 0xb9] = false
      /\ validate_numbers_only (Some [0xb2; 0xb9]) = Passed
      /\ field_validate patient_contact_validators (Some [0xb2; 0xb9]) [] = inr []
      /\ field_validate physician_contact_validators (Some [0xb2; 0xb9]) [] = inr []).
Proof.
  split; [|split; repeat split; vm_compute; reflexivity].
  intros s. unfold validate_numbers_only. destruct (isdigit s); reflexivity.
Qed.

(** ** The form: what each chain of validators reports *)

Section Properties.

Variable unicode_nfkd : char -> str.
Variable unicode_lower : str -> str.
Variable render_report : ConsultationForm -> str -> str -> str -> exn + str.
Variable weasyprint : str -> gmap location bytes -> exn + bytes.

Local Abbreviation index_ := (index unicode_nfkd unicode_lower render_report weasyprint).
Local Abbreviation generate_pdf_ := (generate_pdf unicode_nfkd render_report weasyprint).
Local Abbreviation form_errors_ := (form_errors unicode_lower).
Local Abbreviation field_errors_ := (field_errors unicode_lower).

Lemma required_field_errors (data : option str) :
  field_validate [DataRequired_str] data []
  = inr (if blank data then [required_msg] else []).
Proof.
  unfold field_validate. cbn [run_validation_chain].
  rewrite DataRequired_str_spec. unfold blank.
  destruct data as [s|]; [destruct (forallb is_whitespace s)|]; reflexivity.
Qed.

Lemma name_field_errors (msg : string) (data : option str) :
  msg <> ""%string ->
  field_validate [DataRequired_str; check (Regexp_name msg)] data []
  = inr (if blank data then [required_msg]
         else if forallb name_class (default [] data) then [] else [msg]).
Proof.
  intros Hmsg. unfold field_validate. cbn [run_validation_chain].
  rewrite DataRequired_str_spec. unfold blank, check, Regexp_name.
  destruct data as [s|]; [|reflexivity].
  destruct (forallb is_whitespace s); [reflexivity|].
  change (default [] (Some s)) with s.
  cbn [run_validation_chain]. rewrite name_re_match_forallb.
  destruct (forallb name_class s); reflexivity.
Qed.

Lemma contact_field_errors (data : option str) :
  field_validate [DataRequired_str; check validate_numbers_only] data []
  = inr (if blank data then [required_msg]
         else if isdigit (default [] data) then [] else [numbers_only_msg]).
Proof.
  unfold field_validate. cbn [run_validation_chain].
  rewrite DataRequired_str_spec. unfold blank, check, validate_numbers_only.
  destruct data as [s|]; [|reflexivity].
  destruct (forallb is_whitespace s); [reflexivity|].
  change (default [] (Some s)) with s.
  cbn [run_validation_chain]. destruct (isdigit s); reflexivity.
Qed.

Lemma logo_field_errors (f : option FileStorage) :
  field_validate (clinic_logo_validators unicode_lower) f []
  = inr (match f with
         | None => [required_msg]
         | Some file =>
             match filename file with
             | [] => [required_msg]
             | _ =>
                 if has_allowed_extension unicode_lower (filename file) then []
                 else ["Images only!"%string]
             end
         end).
Proof.
  unfold field_validate, clinic_logo_validators, check, has_allowed_extension.
  destruct f as [[name data]|]; [|reflexivity].
  cbn [filename]. destruct name as [|c name]; [reflexivity|].
  cbn [run_validation_chain FileRequired FileAllowed filename].
  match goal with |- context [existsb ?f allowed_extensions] =>
    destruct (existsb f allowed_extensions) end; reflexivity.
Qed.

Lemma dob_field_errors (today : date) (i : date_input) :
  field_validate (patient_dob_validators today) (date_data i)
    (date_process_errors i)
  = inr (match i with
         | Parsed d => if date_gt d today then [invalid_format_msg] else []
         | _ => [required_msg]
         end).
Proof.
  destruct i as [|raw|d]; try reflexivity.
  unfold field_validate, patient_dob_validators, check,
    validate_date_not_above_current, date_not_above_current_body.
  cbn [run_validation_chain DataRequired_date date_data date_process_errors
         py_gt_date].
  destruct (date_gt d today); reflexivity.
Qed.

(** No validator chain of the form lets an exception through. *)
Lemma field_errors_total (today : date) (csrf : option string)
    (form : ConsultationForm) :
  Forall (fun r => exists errors, snd r = inr errors)
         (field_errors_ today csrf form).
Proof.
  unfold field_errors, clinic_name_validators, physician_name_validators,
    patient_contact_validators, patient_first_name_validators,
    patient_last_name_validators, physician_contact_validators,
    chief_complaint_validators, consultation_note_validators.
  rewrite !required_field_errors, !contact_field_errors, logo_field_errors,
    dob_field_errors, !name_field_errors by discriminate.
  repeat constructor; cbn [snd]; eauto.
Qed.

Lemma collect_errors_total (results : list (string * (exn + list string))) :
  Forall (fun r => exists errors, snd r = inr errors) results ->
  exists errs,
    collect_errors results = inr errs
    /\ (forall name errors,
          In (name, inr errors) results -> errors <> [] -> In (name, errors) errs)
    /\ (errs = [] ->
        forall name errors, In (name, inr errors) results -> errors = []).
Proof.
  induction 1 as [|[name r] results (errors & Hr) _ (errs & Hc & Hin & Hnil)].
  - exists []. split; [reflexivity|]. split; intros; contradiction.
  - cbn [snd] in Hr. subst r. cbn [collect_errors]. rewrite Hc.
    destruct errors as [|e errors].
    + exists errs. split; [reflexivity|]. split.
      * intros n es [[= <- <-] | Hn] Hne; [congruence | eauto].
      * intros -> n es [[= <- <-] | Hn]; [reflexivity | eauto].
    + exists ((name, e :: errors) :: errs). split; [reflexivity|]. split.
      * intros n es [[= <- <-] | Hn] Hne; [left; reflexivity | right; eauto].
      * discriminate.
Qed.

Lemma form_errors_total (today : date) (csrf : option string)
    (form : ConsultationForm) :
  exists errs,
    form_errors_ today csrf form = inr errs
    /\ (forall name errors,
          In (name, inr errors) (field_errors_ today csrf form) ->
          errors <> [] -> In (name, errors) errs)
    /\ (errs = [] ->
        forall name errors,
          In (name, inr errors) (field_errors_ today csrf form) -> errors = []).
Proof. apply collect_errors_total, field_errors_total. Qed.

(** A submission with errors gets the form back, and nothing is written. *)
Lemma index_rejects (req : request) (fs : gmap location bytes)
    (errs : list (string * list string)) :
  method req = POST ->
  form_errors_ (clock_today req) (csrf_error req) (posted req) = inr errs ->
  errs <> [] ->
  serve (index_ req) fs = (FormPage errs, fs).
Proof.
  intros Hm He Hne. unfold serve, index, validate_on_submit.
  rewrite Hm, He. rewrite bool_decide_eq_false_2 by exact Hne. reflexivity.
Qed.

(** A submission without errors is handed to [generate_pdf]. *)
Lemma index_accepts (req : request) :
  method req = POST ->
  form_errors_ (clock_today req) (csrf_error req) (posted req) = inr [] ->
  index_ req = generate_pdf_ req (posted req).
Proof.
  intros Hm He. unfold index, validate_on_submit. rewrite Hm, He. reflexivity.
Qed.

(** A field with errors makes the submission one with errors. *)
Lemma index_rejects_field (req : request) (fs : gmap location bytes)
    (name : string) (errors : list string) :
  method req = POST ->
  In (name, inr errors)
     (field_errors_ (clock_today req) (csrf_error req) (posted req)) ->
  errors <> [] ->
  exists errs,
    serve (index_ req) fs = (FormPage errs, fs) /\ In (name, errors) errs.
Proof.
  intros Hm Hin Hne.
  destruct (form_errors_total (clock_today req) (csrf_error req) (posted req))
    as (errs & He & Hall & Hnil).
  exists errs. split; [|exact (Hall _ _ Hin Hne)].
  apply index_rejects; [exact Hm | exact He |].
  intros ->. apply Hne. exact (Hnil eq_refl _ _ Hin).
Qed.

(** ** The date field on text that is not a date *)

(** C4.  The validator raises its "Invalid date format" error exactly on
    the dates after today, never on input that is not a date: with no date
    as field data the comparison raises [TypeError], which the [except]
    clause does not catch.  For a submitted text that is not a date the
    validator is not even called: [DataRequired] stops the chain, the field
    ends with the single error "This field is required.", and the form is
    shown again with it. *)
Theorem C4_invalid_format_error_not_for_unparseable_input (today : date)
    (data : option date) (raw : str) (req : request) (fs : gmap location bytes) :
  (validate_date_not_above_current today data
     = ValidationError "Invalid date format. Please use YYYY-MM-DD."
   <-> exists d, data = Some d /\ date_gt d today = true)
  /\ validate_date_not_above_current today None = Uncaught TypeError
  /\ field_validate (patient_dob_validators today) (date_data (NotADate raw))
       (date_process_errors (NotADate raw))
     = inr ["This field is required."%string]
  /\ (method req = POST -> patient_dob (posted req) = NotADate raw ->
      exists errs,
        serve (index_ req) fs = (FormPage errs, fs)
        /\ In ("patient_dob"%string, ["This field is required."%string]) errs).
Proof.
  split; [|split; [reflexivity|split; [reflexivity|]]].
  - unfold validate_date_not_above_current, date_not_above_current_body.
    destruct data as [d|]; cbn [py_gt_date].
    + destruct (date_gt d today) eqn:E; cbn; split.
      * eauto.
      * reflexivity.
      * discriminate.
      * intros (d' & [= <-] & H). congruence.
    + cbn. split; [discriminate | intros (d & [=] & _)].
  - intros Hpost Hdob. apply index_rejects_field; [exact Hpost | | discriminate].
    unfold field_errors. rewrite Hdob.
    change (field_validate (patient_dob_validators (clock_today req))
              (date_data (NotADate raw)) (date_process_errors (NotADate raw)))
      with (@inr exn (list string) ["This field is required."%string]).
    cbn [In]. auto 12.
Qed.

(** ** The name fields *)

Lemma other_character_rejected (s : str) :
  (exists c, In c s /\ is_ascii_letter c = false /\ is_whitespace c = false) ->
  blank (Some s) = false /\ forallb name_class s = false.
Proof.
  intros (c & Hin & Hl & Hw). split; apply forallb_false_witness; exists c.
  - auto.
  - split; [exact Hin|]. unfold name_class. rewrite Hl, Hw. reflexivity.
Qed.

(** C6 (as amended).  A string with a character that is neither an ASCII
    letter nor a whitespace character (the class [\s]: space, tab, newline
    and so on) fails the regular expression of the name fields; submitted as
    physician name, patient first name or patient last name it puts the
    "... must contain characters only." error of that field on the form,
    which is shown again, and nothing is written: no PDF is generated. *)
Theorem C6_name_fields_reject_other_characters (req : request)
    (fs : gmap location bytes) (s : str)
    (Hpost : method req = POST)
    (Hbad : exists c, In c s /\ is_ascii_letter c = false /\ is_whitespace c = false) :
  (forall msg, Regexp_name msg (Some s) = ValidationError msg)
  /\ mentions "Physician name must contain characters only." "characters only" = true
  /\ (physician_name (posted req) = Some s ->
      exists errs,
        serve (index_ req) fs = (FormPage errs, fs)
        /\ In ("physician_name"%string,
               ["Physician name must contain characters only."%string]) errs)
  /\ (patient_first_name (posted req) = Some s ->
      exists errs,
        serve (index_ req) fs = (FormPage errs, fs)
        /\ In ("patient_first_name"%string,
               ["Patient first name must contain characters only."%string]) errs)
  /\ (patient_last_name (posted req) = Some s ->
      exists errs,
        serve (index_ req) fs = (FormPage errs, fs)
        /\ In ("patient_last_name"%string,
               ["Patient last name must contain characters only."%string]) errs).
Proof.
  destruct (other_character_rejected s Hbad) as [Hblank Hclass].
  assert (Hfield : forall msg, msg <> ""%string ->
            field_validate [DataRequired_str; check (Regexp_name msg)] (Some s) []
            = inr [msg]).
  { intros msg Hmsg. rewrite name_field_errors by exact Hmsg.
    rewrite Hblank. change (default [] (Some s)) with s. rewrite Hclass.
    reflexivity. }
  split.
  { intros msg. unfold Regexp_name. change (default [] (Some s)) with s.
    rewrite name_re_match_forallb, Hclass. reflexivity. }
  split; [reflexivity|].
  split; [|split]; intros Hs; apply index_rejects_field;
    try exact Hpost; try discriminate;
    unfold field_errors, physician_name_validators,
      patient_first_name_validators, patient_last_name_validators;
    rewrite Hs, Hfield by discriminate; cbn [In]; auto 10.
Qed.

(** C6 as stated fails on a tab: "John<TAB>Doe" holds a
    character that is neither an ASCII letter nor a space, and the physician
    name field accepts it. *)
Lemma C6_tab_counterexample :
  ~ (forall s : str,
       (exists c, In c s /\ is_ascii_letter c = false /\ c <> 32) ->
       field_validate physician_name_validators (Some s) [] <> inr []).
Proof.
  intros H. apply (H (u "John" ++ [9] ++ u "Doe")).
  - exists 9. split; [simpl; tauto|]. split; [reflexivity | discriminate].
  - vm_compute. reflexivity.
Qed.

(** ** The logo field *)

Lemma lower_ascii (s : str) :
  forallb is_ascii s = true -> lower unicode_lower s = map ascii_lower s.
Proof. intros H. unfold lower. rewrite H. reflexivity. Qed.

(** C7.  The logo field has no error exactly when a file with a name was
    uploaded and its lower-cased name ends in ".jpg" or ".png" (so ASCII
    names that differ only in case are treated alike).  A submission whose
    logo is missing or has another extension gets the form back with an
    error on the logo field, and the file system is left as it was. *)
Theorem C7_logo_extension_checked_before_any_write (req : request)
    (fs : gmap location bytes)
    (Hpost : method req = POST)
    (Hlogo : clinic_logo (posted req) = None
             \/ exists file,
                  clinic_logo (posted req) = Some file
                  /\ has_allowed_extension unicode_lower (filename file) = false) :
  (exists errs msg,
     serve (index_ req) fs = (FormPage errs, fs)
     /\ In ("clinic_logo"%string, [msg]) errs)
  /\ (forall f,
        field_validate (clinic_logo_validators unicode_lower) f [] = inr []
        <-> exists file,
              f = Some file
              /\ has_allowed_extension unicode_lower (filename file) = true)
  /\ (forall a b,
        forallb is_ascii a = true -> forallb is_ascii b = true ->
        map ascii_lower a = map ascii_lower b ->
        has_allowed_extension unicode_lower a = has_allowed_extension unicode_lower b)
  /\ has_allowed_extension unicode_lower (u "scan.gif") = false
  /\ has_allowed_extension unicode_lower (u "LOGO.PNG") = true
  /\ has_allowed_extension unicode_lower (u "photo.JpG") = true.
Proof.
  assert (Hempty : has_allowed_extension unicode_lower [] = false) by reflexivity.
  split; [|split; [|split]].
  - pose proof (logo_field_errors (clinic_logo (posted req))) as Hf.
    assert (Hin : forall errors,
              field_validate (clinic_logo_validators unicode_lower)
                (clinic_logo (posted req)) [] = inr errors ->
              In ("clinic_logo"%string, inr errors)
                 (field_errors_ (clock_today req) (csrf_error req) (posted req))).
    { intros errors <-. unfold field_errors. cbn [In]. auto. }
    assert (Hmsg : exists msg,
              field_validate (clinic_logo_validators unicode_lower)
                (clinic_logo (posted req)) [] = inr [msg]).
    { rewrite Hf. destruct Hlogo as [-> | (file & -> & Hext)]; [eauto|].
      rewrite Hext. destruct (filename file); eauto. }
    destruct Hmsg as (msg & Hmsg).
    destruct (index_rejects_field req fs _ _ Hpost (Hin _ Hmsg)) as (errs & ? & ?);
      [discriminate|]. eauto.
  - intros f. rewrite logo_field_errors.
    destruct f as [file|]; [|split; [discriminate | intros (file & [=] & _)]].
    destruct (has_allowed_extension unicode_lower (filename file)) eqn:E.
    + destruct (filename file) eqn:En; [congruence|].
      split; [|reflexivity].
      intros _. exists file. split; [reflexivity|]. rewrite En. exact E.
    + split.
      * destruct (filename file); discriminate.
      * intros (file' & [= <-] & H). congruence.
  - intros a b Ha Hb Hab. unfold has_allowed_extension.
    rewrite !lower_ascii by assumption. rewrite Hab. reflexivity.
  - repeat split; unfold has_allowed_extension;
      rewrite lower_ascii by reflexivity; vm_compute; reflexivity.
Qed.

(** ** Failure after the logo is stored *)

(** C10.  On a valid submission the logo is written before the report is
    rendered: when rendering the template or generating the PDF raises, the
    request ends in a server error and the file system holds the logo under
    the path it was saved to. *)
Theorem C10_logo_persisted_when_pdf_generation_fails (req : request)
    (fs : gmap location bytes) (logo : FileStorage) (e : exn)
    (Hpost : method req = POST)
    (Hvalid : form_errors_ (clock_today req) (csrf_error req) (posted req) = inr [])
    (Hlogo : clinic_logo (posted req) = Some logo)
    (Hfail :
       let fs1 := <[resolve (u "uploads/" ++ filename logo) := stream logo]> fs in
       let rendered :=
         render_report (posted req)
           (base_url req ++ u "/" ++ u "uploads/" ++ filename logo)
           (clock_now req) (remote_addr req) in
       rendered = inl e
       \/ exists html, rendered = inr html /\ weasyprint html fs1 = inl e) :
  let fs1 := <[resolve (u "uploads/" ++ filename logo) := stream logo]> fs in
  serve (index_ req) fs = (InternalServerError e, fs1)
  /\ fs1 !! resolve (u "uploads/" ++ filename logo) = Some (stream logo).
Proof.
  cbv zeta in *. split; [|apply lookup_insert_eq].
  rewrite (index_accepts req Hpost Hvalid).
  unfold serve, generate_pdf. rewrite Hlogo.
  unfold bind at 1. unfold save, write_file at 1.
  destruct Hfail as [Hr | (html & Hr & Hw)]; rewrite Hr.
  - reflexivity.
  - unfold bind, write_pdf. rewrite Hw. reflexivity.
Qed.

(** ** Paths: splitting, joining, normalising and resolving *)

Lemma split_on_nonempty (sep : char) (s : str) : split_on sep s <> [].
Proof.
  destruct s as [|c s]; [discriminate|]. cbn [split_on].
  destruct (c =? sep); [discriminate|]. destruct (split_on sep s); discriminate.
Qed.

Lemma split_on_no_sep (sep : char) (s w : str) :
  In w (split_on sep s) -> ~ In sep w.
Proof.
  revert w. induction s as [|c s IH]; intros w.
  - cbn. intros [<- | []]. intros [].
  - cbn [split_on]. destruct (N.eqb_spec c sep) as [->|Hne].
    + intros [<- | Hin]; [intros [] | exact (IH w Hin)].
    + pose proof (split_on_nonempty sep s) as Hnil.
      destruct (split_on sep s) as [|w0 ws]; [congruence|].
      intros [<- | Hin].
      * intros [-> | Hin']; [congruence|]. apply (IH w0); [left; reflexivity | exact Hin'].
      * apply IH. right. exact Hin.
Qed.

Lemma split_on_app_sep (sep : char) (a b : str) :
  ~ In sep a -> split_on sep (a ++ sep :: b) = a :: split_on sep b.
Proof.
  induction a as [|c a IH]; intros Hna.
  - cbn [app split_on]. rewrite N.eqb_refl. reflexivity.
  - cbn [app split_on]. destruct (N.eqb_spec c sep) as [->|Hne].
    + exfalso. apply Hna. left. reflexivity.
    + rewrite IH; [reflexivity|]. intros Hin. apply Hna. right. exact Hin.
Qed.

Lemma split_on_one (sep : char) (a : str) :
  ~ In sep a -> split_on sep a = [a].
Proof.
  induction a as [|c a IH]; intros Hna; [reflexivity|].
  cbn [split_on]. destruct (N.eqb_spec c sep) as [->|Hne].
  - exfalso. apply Hna. left. reflexivity.
  - rewrite IH; [reflexivity|]. intros Hin. apply Hna. right. exact Hin.
Qed.

Lemma split_on_join (sep : char) (comps : list str) :
  comps <> [] -> Forall (fun w => ~ In sep w) comps ->
  split_on sep (join_with [sep] comps) = comps.
Proof.
  induction comps as [|w comps IH]; [congruence|].
  intros _ Hall. inversion Hall as [|? ? Hw Hws]; subst.
  destruct comps as [|w' comps].
  - cbn [join_with]. apply split_on_one. exact Hw.
  - change (join_with [sep] (w :: w' :: comps))
      with (w ++ sep :: join_with [sep] (w' :: comps)).
    rewrite split_on_app_sep by exact Hw. f_equal. apply IH; [discriminate|exact Hws].
Qed.

Lemma str_eqb_eq (a b : str) : str_eqb a b = true <-> a = b.
Proof. unfold str_eqb. apply bool_decide_eq_true. Qed.

Lemma str_eqb_neq (a b : str) : str_eqb a b = false <-> a <> b.
Proof. unfold str_eqb. apply bool_decide_eq_false. Qed.

Lemma str_eqb_refl (a : str) : str_eqb a a = true.
Proof. apply str_eqb_eq. reflexivity. Qed.

Lemma normpath_step_plain (n : N) (stack : list str) (c : str) :
  plain c -> normpath_step n stack c = c :: stack.
Proof.
  intros (H0 & H1 & H2 & _). unfold normpath_step.
  rewrite (proj2 (str_eqb_neq c []) H0), (proj2 (str_eqb_neq c dot) H1),
    (proj2 (str_eqb_neq c dotdot) H2). reflexivity.
Qed.

Lemma resolve_step_plain (a : bool) (stack : list str) (c : str) :
  plain c -> resolve_step a stack c = c :: stack.
Proof.
  intros (H0 & H1 & H2 & _). unfold resolve_step.
  rewrite (proj2 (str_eqb_neq c []) H0), (proj2 (str_eqb_neq c dot) H1),
    (proj2 (str_eqb_neq c dotdot) H2). reflexivity.
Qed.

Lemma component_cases (c : str) :
  ~ In slash c -> c = [] \/ c = dot \/ c = dotdot \/ plain c.
Proof.
  intros Hc.
  destruct (decide (c = [])); [auto|].
  destruct (decide (c = dot)); [auto|].
  destruct (decide (c = dotdot)); [auto|].
  right; right; right. repeat split; assumption.
Qed.

Lemma stacks_related_step (base : str) (nstack rstack : list str) (c : str) :
  plain base -> ~ In slash c ->
  stacks_related base nstack rstack ->
  stacks_related base (normpath_step 0 nstack c) (resolve_step false rstack c).
Proof.
  intros Hbase Hslash (names & k & Hnames & -> & ->).
  destruct (component_cases c Hslash) as [-> | [-> | [-> | Hc]]].
  - exists names, k. auto.
  - exists names, k. auto.
  - destruct names as [|top names].
    + destruct k as [|k].
      * exists [], 1%nat. split; [constructor|]. split; [reflexivity|].
        unfold resolve_step. cbn.
        destruct Hbase as (_ & _ & Hb & _).
        rewrite (proj2 (str_eqb_neq base dotdot) Hb). reflexivity.
      * exists [], (S (S k)). split; [constructor|]. split; [reflexivity|].
        destruct k; reflexivity.
    + inversion Hnames as [|? ? Htop Hrest]; subst.
      exists names, k. split; [exact Hrest|].
      destruct Htop as (_ & _ & Ht & _).
      unfold normpath_step, resolve_step. cbn.
      rewrite (proj2 (str_eqb_neq top dotdot) Ht). cbn. split; reflexivity.
  - rewrite normpath_step_plain, resolve_step_plain by exact Hc.
    exists (c :: names), k. split; [constructor; assumption|].
    split; reflexivity.
Qed.

Lemma stacks_related_fold (base : str) (comps : list str)
    (nstack rstack : list str) :
  plain base -> Forall (fun c => ~ In slash c) comps ->
  stacks_related base nstack rstack ->
  stacks_related base (fold_left (normpath_step 0) comps nstack)
                      (fold_left (resolve_step false) comps rstack).
Proof.
  intros Hbase Hall. revert nstack rstack.
  induction Hall as [|c comps Hc _ IH]; intros nstack rstack H; [exact H|].
  cbn [fold_left]. apply IH, stacks_related_step; assumption.
Qed.

Lemma resolve_fold_plain (a : bool) (comps stack : list str) :
  Forall plain comps ->
  fold_left (resolve_step a) comps stack = rev comps ++ stack.
Proof.
  intros Hall. revert stack.
  induction Hall as [|c comps Hc _ IH]; intros stack; [reflexivity|].
  cbn [fold_left rev]. rewrite resolve_step_plain by exact Hc.
  rewrite IH, <- app_assoc. reflexivity.
Qed.

Lemma join_with_nonempty (sep w : str) (ws : list str) :
  w <> [] -> join_with sep (w :: ws) <> [].
Proof.
  intros Hw. destruct w as [|c w]; [congruence|].
  destruct ws; cbn [join_with app]; discriminate.
Qed.

Lemma rev_repeat_same {A : Type} (x : A) (n : nat) : rev (repeat x n) = repeat x n.
Proof.
  induction n as [|n IH]; [reflexivity|].
  cbn [repeat rev]. rewrite IH. symmetry. apply repeat_cons.
Qed.

Lemma normpath_absolute (rest : str) :
  startswith [slash] (normpath (slash :: rest)) = true.
Proof.
  unfold normpath.
  destruct (startswith [slash; slash] (slash :: rest)
            && negb (startswith [slash; slash; slash] (slash :: rest)));
    reflexivity.
Qed.

Lemma normpath_relative (c : char) (rest : str) :
  c <> slash ->
  normpath (c :: rest)
  = match join_with [slash]
            (rev (fold_left (normpath_step 0) (split_on slash (c :: rest)) [])) with
    | [] => dot
    | p => p
    end.
Proof.
  intros Hc. unfold normpath. cbn [startswith].
  rewrite (proj2 (N.eqb_neq slash c)) by congruence. cbn [andb].
  change (repeat slash (N.to_nat 0)) with (@nil char). cbn [app].
  destruct (join_with [slash] _); reflexivity.
Qed.

Section SafeJoin.

Variable dir : str.
Hypothesis dir_plain : plain dir.

Lemma dir_not_slash (x : str) : startswith [slash] (dir ++ x) = false.
Proof.
  destruct dir_plain as (H0 & _ & _ & Hs).
  destruct dir as [|c d]; [congruence|]. cbn [app startswith].
  rewrite (proj2 (N.eqb_neq slash c)); [reflexivity|].
  intros <-. apply Hs. left. reflexivity.
Qed.

Lemma path_join_dir (b : str) :
  startswith [slash] b = false -> path_join dir b = dir ++ slash :: b.
Proof.
  intros Hb. unfold path_join. rewrite Hb.
  destruct dir_plain as (H0 & _ & _ & Hs).
  rewrite (proj2 (str_eqb_neq dir []) H0). cbn [orb].
  unfold endswith. cbn [rev app].
  destruct (rev dir) as [|c d] eqn:E; [reflexivity|].
  cbn [startswith]. rewrite (proj2 (N.eqb_neq slash c)); [reflexivity|].
  intros <-. apply Hs. apply in_rev. rewrite E. left. reflexivity.
Qed.

Lemma resolve_below_dir (b : str) :
  resolve (dir ++ slash :: b)
  = (false, rev (fold_left (resolve_step false) (split_on slash b) [dir])).
Proof.
  unfold resolve. rewrite dir_not_slash.
  destruct dir_plain as (_ & _ & _ & Hs).
  rewrite split_on_app_sep by exact Hs. cbn [fold_left].
  rewrite resolve_step_plain by exact dir_plain. reflexivity.
Qed.

(** [safe_join] either refuses the name, or gives a path that resolves where
    the name resolves below the directory, which is inside the directory. *)
Lemma safe_join_within (path : str) :
  safe_join dir path = None
  \/ exists p,
       safe_join dir path = Some p
       /\ resolve p = resolve (dir ++ slash :: path)
       /\ within dir (resolve p) = true.
Proof.
  pose proof dir_plain as (Hd0 & _ & _ & Hds).
  unfold safe_join.
  replace (match dir with [] => dot | _ :: _ => dir end) with dir
    by (destruct dir; congruence).
  destruct path as [|c rest].
  - right. exists (dir ++ [slash]). cbn [startswith str_eqb orb].
    rewrite (path_join_dir []) by reflexivity.
    change (bool_decide ([] = dotdot)) with false. cbn [orb].
    split; [reflexivity|]. split; [reflexivity|].
    rewrite resolve_below_dir. cbn. unfold resolve_step. cbn.
    apply str_eqb_refl.
  - destruct (N.eq_dec c slash) as [->|Hc].
    { left. rewrite normpath_absolute. reflexivity. }
    rewrite normpath_relative by exact Hc.
    assert (Hcomps : Forall (fun w => ~ In slash w) (split_on slash (c :: rest))).
    { apply List.Forall_forall. intros w. apply split_on_no_sep. }
    destruct (stacks_related_fold dir (split_on slash (c :: rest)) [] [dir]
                dir_plain Hcomps) as (names & k & Hnames & HN & HR).
    { exists [], O. split; [constructor|]. split; reflexivity. }
    rewrite HN. rewrite rev_app_distr, rev_repeat_same.
    destruct k as [|k].
    + (* no step out of the directory *)
      cbn [repeat app].
      set (normp := match join_with [slash] (rev names) with
                    | [] => dot
                    | p => p
                    end).
      destruct (startswith [slash] normp || str_eqb normp dotdot
                || startswith (dotdot ++ [slash]) normp) eqn:Echeck;
        [left; reflexivity|].
      right. exists (dir ++ slash :: normp).
      apply orb_false_iff in Echeck as [Echeck _].
      apply orb_false_iff in Echeck as [Eslash _].
      rewrite (path_join_dir normp Eslash).
      split; [reflexivity|].
      assert (Hres : fold_left (resolve_step false) (split_on slash normp) [dir]
                     = names ++ [dir]).
      { subst normp. destruct (rev names) as [|w ws] eqn:Erev.
        - apply (f_equal (@rev str)) in Erev. rewrite rev_involutive in Erev.
          subst names. cbn.
          unfold resolve_step. cbn. reflexivity.
        - assert (Hplain : Forall plain (w :: ws)).
          { rewrite <- Erev. apply Forall_rev. exact Hnames. }
          assert (Hw : w <> []).
          { inversion Hplain as [|? ? (? & _) _]. assumption. }
          pose proof (join_with_nonempty [slash] w ws Hw) as Hne.
          destruct (join_with [slash] (w :: ws)) as [|x xs] eqn:Ej; [congruence|].
          rewrite <- Ej. rewrite split_on_join.
          + rewrite resolve_fold_plain by exact Hplain.
            rewrite <- Erev, rev_involutive. reflexivity.
          + discriminate.
          + eapply Forall_impl; [exact Hplain|]. intros ? (_ & _ & _ & ?). assumption. }
      rewrite !resolve_below_dir, Hres, HR.
      split; [reflexivity|].
      rewrite rev_app_distr. cbn. apply str_eqb_refl.
    + (* a step out: the normalised name starts with [..] *)
      left. cbn [repeat app].
      destruct (repeat dotdot k ++ rev names) as [|w ws].
      * reflexivity.
      * reflexivity.
Qed.


End SafeJoin.

(** ** Serving stored files *)

Lemma upload_dir_plain : plain (u "uploads").
Proof.
  repeat split; try discriminate.
  cbn. intros H. repeat destruct H as [H|H]; try discriminate H. exact H.
Qed.

Lemma send_from_directory_none (dir path : str) (fs : gmap location bytes) :
  safe_join dir path = None ->
  serve (send_from_directory dir path) fs = (NotFound, fs).
Proof.
  intros H. unfold serve, send_from_directory. rewrite H. reflexivity.
Qed.

Lemma send_from_directory_some (dir path p : str) (fs : gmap location bytes) :
  safe_join dir path = Some p ->
  serve (send_from_directory dir path) fs
  = match fs !! resolve p with
    | Some body => (FileResponse body, fs)
    | None => (NotFound, fs)
    end.
Proof.
  intros H. unfold serve, send_from_directory. rewrite H.
  unfold bind, isfile, read_file, ret.
  destruct (fs !! resolve p) as [body|] eqn:E.
  - rewrite bool_decide_eq_true_2 by eauto. rewrite E. reflexivity.
  - rewrite bool_decide_eq_false_2 by (intros [? [=]]). reflexivity.
Qed.

(** C8.  [send_report] answers with a file only when [safe_join] accepted
    the path, and then the file is the one at the location the path resolves
    to below "uploads", which lies within the upload directory; a path that
    resolves outside it (such as "../../etc/passwd") and a path at which no
    file is stored get 404.  A file stored in the directory is served. *)
Theorem C8_send_report_stays_within_upload_dir (path : str)
    (fs : gmap location bytes) :
  (serve (send_report path) fs = (NotFound, fs)
   \/ exists p body,
        safe_join (u "uploads") path = Some p
        /\ resolve p = resolve (u "uploads/" ++ path)
        /\ within upload_dir (resolve p) = true
        /\ fs !! resolve p = Some body
        /\ serve (send_report path) fs = (FileResponse body, fs))
  /\ (within upload_dir (resolve (u "uploads/" ++ path)) = false ->
      serve (send_report path) fs = (NotFound, fs))
  /\ (fs !! resolve (u "uploads/" ++ path) = None ->
      serve (send_report path) fs = (NotFound, fs))
  /\ serve (send_report (u "../../etc/passwd")) fs = (NotFound, fs)
  /\ (forall body,
        serve (send_report (u "logo.png"))
              (<[(false, [u "uploads"; u "logo.png"]) := body]> fs)
        = (FileResponse body,
           <[(false, [u "uploads"; u "logo.png"]) := body]> fs)).
Proof.
  change (u "uploads/" ++ path) with (u "uploads" ++ slash :: path).
  unfold send_report.
  assert (Hex : forall body,
            serve (send_from_directory (u "uploads") (u "logo.png"))
                  (<[(false, [u "uploads"; u "logo.png"]) := body]> fs)
            = (FileResponse body,
               <[(false, [u "uploads"; u "logo.png"]) := body]> fs)).
  { intros body.
    rewrite (send_from_directory_some _ _ (u "uploads/logo.png")) by reflexivity.
    change (resolve (u "uploads/logo.png"))
      with ((false, [u "uploads"; u "logo.png"]) : location).
    rewrite lookup_insert_eq. reflexivity. }
  assert (Hpasswd : serve (send_from_directory (u "uploads") (u "../../etc/passwd")) fs
                    = (NotFound, fs)).
  { apply send_from_directory_none. reflexivity. }
  destruct (safe_join_within (u "uploads") upload_dir_plain path)
    as [Hn | (p & Hs & Heq & Hin)].
  - rewrite (send_from_directory_none _ _ fs Hn). auto 6.
  - rewrite (send_from_directory_some _ _ p fs Hs).
    split; [|split; [|split; [|split]]]; try assumption.
    + destruct (fs !! resolve p) as [body|] eqn:E; [right | left; reflexivity].
      exists p, body. rewrite Heq in *. auto.
    + intros Hout. rewrite Heq in Hin. unfold upload_dir in *. congruence.
    + intros Habs. rewrite Heq, Habs. reflexivity.
Qed.

(** ** [secure_filename] *)

Lemma lstrip_suffix (p : char -> bool) (s : str) :
  exists pre, s = pre ++ lstrip p s.
Proof.
  induction s as [|c s (pre & IH)]; [exists []; reflexivity|].
  cbn [lstrip]. destruct (p c).
  - exists (c :: pre). cbn [app]. f_equal. exact IH.
  - exists []. reflexivity.
Qed.

Lemma rstrip_prefix (p : char -> bool) (s : str) :
  exists suf, s = rstrip p s ++ suf.
Proof.
  unfold rstrip. destruct (lstrip_suffix p (rev s)) as (pre & H).
  exists (rev pre). rewrite <- rev_app_distr, <- H, rev_involutive. reflexivity.
Qed.

Lemma strip_chars_head (p : char -> bool) (s : str) (c : char) (t : str) :
  strip_chars p s = c :: t -> p c = false.
Proof.
  unfold strip_chars. intros H.
  destruct (rstrip_prefix p (lstrip p s)) as (suf & Hs).
  rewrite H in Hs. cbn [app] in Hs. exact (lstrip_head p s c _ Hs).
Qed.

Lemma strip_chars_Forall (P : char -> Prop) (p : char -> bool) (s : str) :
  Forall P s -> Forall P (strip_chars p s).
Proof.
  intros H. unfold strip_chars.
  destruct (lstrip_suffix p s) as (pre & Hs). rewrite Hs in H.
  apply Forall_app in H as [_ H].
  destruct (rstrip_prefix p (lstrip p s)) as (suf & Hr). rewrite Hr in H.
  apply Forall_app in H as [H _]. exact H.
Qed.

Lemma filter_Forall (p : char -> bool) (s : str) :
  Forall (fun c => p c = true) (List.filter p s).
Proof. apply List.Forall_forall. intros c Hc. apply filter_In in Hc as [_ H]. exact H. Qed.

Lemma secure_filename_chars (name : str) :
  Forall (fun c => filename_char c = true) (secure_filename unicode_nfkd name).
Proof. unfold secure_filename. apply strip_chars_Forall, filter_Forall. Qed.

Lemma secure_filename_head (name : str) (c : char) (t : str) :
  secure_filename unicode_nfkd name = c :: t -> dot_or_underscore c = false.
Proof. unfold secure_filename. apply strip_chars_head. Qed.

Lemma filename_char_no_slash (s : str) :
  Forall (fun c => filename_char c = true) s -> ~ In slash s.
Proof.
  intros H Hin. rewrite List.Forall_forall in H. specialize (H slash Hin).
  vm_compute in H. discriminate.
Qed.

(** The report is written directly in the upload directory, under the
    sanitised name. *)
Lemma report_path_location (name : str) :
  resolve (path_join UPLOAD_FOLDER (secure_filename unicode_nfkd name))
  = (false, u "uploads" :: match secure_filename unicode_nfkd name with
                           | [] => []
                           | x => [x]
                           end).
Proof.
  pose proof (secure_filename_chars name) as Hchars.
  pose proof (secure_filename_head name) as Hhead.
  pose proof (filename_char_no_slash _ Hchars) as Hslash.
  destruct (secure_filename unicode_nfkd name) as [|c t] eqn:E.
  - reflexivity.
  - specialize (Hhead c t eq_refl).
    assert (Hc : c <> slash /\ c <> 46).
    { split; intros ->; [apply Hslash; left; reflexivity | discriminate Hhead]. }
    unfold path_join, UPLOAD_FOLDER. cbn [startswith].
    rewrite (proj2 (N.eqb_neq slash c)) by (intros H; apply (proj1 Hc); congruence).
    cbn [andb].
    change (str_eqb (u "uploads/") [] || endswith (u "uploads/") [slash]) with true.
    cbv iota.
    change (u "uploads/" ++ c :: t) with (u "uploads" ++ slash :: c :: t).
    rewrite (resolve_below_dir (u "uploads") upload_dir_plain).
    rewrite (split_on_one slash (c :: t) Hslash). cbn [fold_left].
    rewrite resolve_step_plain; [reflexivity|].
    repeat split; try discriminate; try exact Hslash.
    + intros [= -> _]. apply (proj2 Hc). reflexivity.
    + intros [= -> _]. apply (proj2 Hc). reflexivity.
Qed.

(** A string of file-name characters that neither starts nor ends with a dot
    or an underscore is its own sanitised form. *)
Lemma filename_char_ascii (c : char) : filename_char c = true -> is_ascii c = true.
Proof.
  unfold filename_char, is_ascii_letter, is_ascii_upper, is_ascii_lower,
    is_ascii_digit, is_ascii.
  rewrite !orb_true_iff, !andb_true_iff, !N.leb_le, !N.eqb_eq, N.ltb_lt. lia.
Qed.

Lemma filename_char_not_whitespace (c : char) :
  filename_char c = true -> is_whitespace c = false.
Proof.
  intros H. pose proof (filename_char_ascii c H) as Ha.
  apply N.ltb_lt in Ha.
  unfold is_whitespace, whitespace_ranges, in_ranges. cbn [existsb fst snd].
  unfold filename_char, is_ascii_letter, is_ascii_upper, is_ascii_lower,
    is_ascii_digit in H.
  rewrite !orb_true_iff, !andb_true_iff, !N.leb_le, !N.eqb_eq in H.
  repeat (apply orb_false_iff; split); try reflexivity;
    apply andb_false_iff; rewrite !N.leb_gt; lia.
Qed.

Lemma ascii_ignore_id (s : str) :
  Forall (fun c => filename_char c = true) s -> ascii_ignore unicode_nfkd s = s.
Proof.
  unfold ascii_ignore. induction 1 as [|c s Hc _ IH]; [reflexivity|].
  cbn [flat_map]. rewrite (filename_char_ascii c Hc). cbn [app List.filter].
  rewrite (filename_char_ascii c Hc), IH. reflexivity.
Qed.

Lemma replace_char_id (old : char) (new s : str) :
  ~ In old s -> replace_char old new s = s.
Proof.
  unfold replace_char. induction s as [|c s IH]; intros Hn; [reflexivity|].
  cbn [flat_map]. rewrite (proj2 (N.eqb_neq c old)).
  - cbn [app]. rewrite IH; [reflexivity|]. intros H. apply Hn. right. exact H.
  - intros ->. apply Hn. left. reflexivity.
Qed.

Lemma split_whitespace_from_one (word s : str) :
  Forall (fun c => is_whitespace c = false) s ->
  rev word ++ s <> [] ->
  split_whitespace_from word s = [rev word ++ s].
Proof.
  intros Hs. revert word. induction Hs as [|c s Hc _ IH]; intros word Hne.
  - cbn [split_whitespace_from]. rewrite app_nil_r in *.
    destruct word; [cbn in Hne; congruence | reflexivity].
  - cbn [split_whitespace_from]. rewrite Hc. rewrite IH.
    + cbn [rev]. rewrite <- app_assoc. reflexivity.
    + cbn [rev]. rewrite <- app_assoc. cbn [app]. intros H.
      apply app_eq_nil in H as [_ H]. discriminate.
Qed.

Lemma filter_id (p : char -> bool) (s : str) :
  Forall (fun c => p c = true) s -> List.filter p s = s.
Proof.
  induction 1 as [|c s Hc _ IH]; [reflexivity|].
  cbn [List.filter]. rewrite Hc, IH. reflexivity.
Qed.

Lemma secure_filename_id (first last : char) (middle : str) :
  Forall (fun c => filename_char c = true) (first :: middle ++ [last]) ->
  dot_or_underscore first = false -> dot_or_underscore last = false ->
  secure_filename unicode_nfkd (first :: middle ++ [last])
  = first :: middle ++ [last].
Proof.
  intros Hchars Hfirst Hlast. unfold secure_filename.
  rewrite ascii_ignore_id by exact Hchars.
  rewrite replace_char_id by (apply filename_char_no_slash; exact Hchars).
  unfold split_whitespace.
  rewrite split_whitespace_from_one.
  - cbn [rev app join_with]. rewrite filter_id by exact Hchars.
    unfold strip_chars, rstrip. rewrite lstrip_id by exact Hfirst.
    change (first :: middle ++ [last]) with ((first :: middle) ++ [last]).
    rewrite rev_app_distr. cbn [rev app]. rewrite lstrip_id by exact Hlast.
    change (last :: rev middle ++ [first]) with ([last] ++ rev (first :: middle)).
    rewrite rev_app_distr, rev_involutive. reflexivity.
  - eapply Forall_impl; [exact Hchars|]. apply filename_char_not_whitespace.
  - discriminate.
Qed.

(** ** The name of the report *)

Lemma uint_digits_chars (d : Decimal.uint) :
  Forall (fun c => filename_char c = true) (uint_digits d).
Proof. induction d; cbn [uint_digits]; constructor; (reflexivity || assumption). Qed.

Lemma zero_padded_chars (width : nat) (n : N) :
  Forall (fun c => filename_char c = true) (zero_padded width n).
Proof.
  unfold zero_padded, decimal. apply Forall_app. split.
  - apply List.Forall_forall. intros c Hc. apply repeat_spec in Hc. subst c.
    reflexivity.
  - apply uint_digits_chars.
Qed.

Lemma forallb_Forall (p : char -> bool) (s : str) :
  forallb p s = true -> Forall (fun c => p c = true) s.
Proof. rewrite forallb_forall, List.Forall_forall. auto. Qed.

Lemma date_str_chars (d : date) :
  Forall (fun c => filename_char c = true) (date_str d).
Proof.
  unfold date_str.
  apply Forall_app; split; [apply zero_padded_chars|].
  apply Forall_app; split; [apply forallb_Forall; reflexivity|].
  apply Forall_app; split; [apply zero_padded_chars|].
  apply Forall_app; split; [apply forallb_Forall; reflexivity|].
  apply zero_padded_chars.
Qed.

Lemma letters_chars (s : str) :
  Forall (fun c => is_ascii_letter c = true) s ->
  Forall (fun c => filename_char c = true) s.
Proof.
  intros H. eapply Forall_impl; [exact H|].
  intros c Hc. unfold filename_char. rewrite Hc. reflexivity.
Qed.

(** The name the f-string builds from letters-only names is left as it is
    by [secure_filename]. *)
Lemma report_name_secure (last first : str) (d : date) :
  Forall (fun c => is_ascii_letter c = true) last ->
  Forall (fun c => is_ascii_letter c = true) first ->
  secure_filename unicode_nfkd
    (u "CR_" ++ last ++ u "_" ++ first ++ u "_" ++ date_str d ++ u ".pdf")
  = u "CR_" ++ last ++ u "_" ++ first ++ u "_" ++ date_str d ++ u ".pdf".
Proof.
  intros Hlast Hfirst.
  assert (Hsplit : u "CR_" ++ last ++ u "_" ++ first ++ u "_" ++ date_str d ++ u ".pdf"
                   = 67 :: (u "R_" ++ last ++ u "_" ++ first ++ u "_" ++ date_str d
                              ++ u ".pd") ++ [102]).
  { change (u ".pdf") with (u ".pd" ++ [102]).
    change (u "CR_") with (67 :: u "R_"). cbn [app].
    rewrite <- !app_assoc. reflexivity. }
  assert (Hall : Forall (fun c => filename_char c = true)
            (u "CR_" ++ last ++ u "_" ++ first ++ u "_" ++ date_str d ++ u ".pdf")).
  { apply Forall_app; split; [apply forallb_Forall; reflexivity|].
    apply Forall_app; split; [apply letters_chars; assumption|].
    apply Forall_app; split; [apply forallb_Forall; reflexivity|].
    apply Forall_app; split; [apply letters_chars; assumption|].
    apply Forall_app; split; [apply forallb_Forall; reflexivity|].
    apply Forall_app; split; [apply date_str_chars|].
    apply forallb_Forall; reflexivity. }
  rewrite Hsplit in Hall |- *.
  apply secure_filename_id; [exact Hall | reflexivity | reflexivity].
Qed.

Lemma basename_upload (x : str) :
  ~ In slash x -> basename (path_join UPLOAD_FOLDER x) = x.
Proof.
  intros Hx. unfold path_join.
  assert (Hs : startswith [slash] x = false).
  { destruct x as [|c x]; [reflexivity|]. cbn [startswith].
    rewrite (proj2 (N.eqb_neq slash c)); [reflexivity|].
    intros <-. apply Hx. left. reflexivity. }
  rewrite Hs.
  change (str_eqb UPLOAD_FOLDER [] || endswith UPLOAD_FOLDER [slash]) with true.
  cbv iota. unfold basename.
  change (UPLOAD_FOLDER ++ x) with (u "uploads" ++ slash :: x).
  rewrite split_on_app_sep by (apply upload_dir_plain).
  rewrite (split_on_one slash x Hx). reflexivity.
Qed.

(** The report, unlike the logo, is written inside the upload directory
    whatever the names and the date of birth: its name goes through
    [secure_filename], which leaves no separator and no leading dot. *)
Theorem report_written_within_upload_dir (form : ConsultationForm) :
  within upload_dir
    (resolve (path_join UPLOAD_FOLDER
                (secure_filename unicode_nfkd (report_filename form))))
  = true.
Proof. rewrite report_path_location. reflexivity. Qed.

(** C2 (as amended).  The report is stored and offered for download under
    [secure_filename] of "CR_<last>_<first>_<dob>.pdf", the date of birth
    printed as YYYY-MM-DD: a valid submission for which rendering succeeds is
    answered with an attachment of that name, stored under it in the upload
    directory, and the name depends on nothing but the two names and the
    date.  When both names consist of ASCII letters only it is the very name
    "CR_<last>_<first>_<dob>.pdf"; for Smith, Jane and 2020-01-01 it is
    "CR_Smith_Jane_2020-01-01.pdf". *)
Theorem C2_report_filename_sanitised (req : request)
    (fs : gmap location bytes) (logo : FileStorage) (html : str) (pdf : bytes)
    (Hpost : method req = POST)
    (Hvalid : form_errors_ (clock_today req) (csrf_error req) (posted req) = inr [])
    (Hlogo : clinic_logo (posted req) = Some logo)
    (Hrender : render_report (posted req)
                 (base_url req ++ u "/" ++ u "uploads/" ++ filename logo)
                 (clock_now req) (remote_addr req) = inr html)
    (Hpdf : weasyprint html
              (<[resolve (u "uploads/" ++ filename logo) := stream logo]> fs)
            = inr pdf) :
  let name := secure_filename unicode_nfkd (report_filename (posted req)) in
  (exists fs',
     serve (index_ req) fs = (Attachment name pdf, fs')
     /\ fs' !! resolve (path_join UPLOAD_FOLDER name) = Some pdf
     /\ within upload_dir (resolve (path_join UPLOAD_FOLDER name)) = true)
  /\ (forall form',
        patient_last_name form' = patient_last_name (posted req) ->
        patient_first_name form' = patient_first_name (posted req) ->
        patient_dob form' = patient_dob (posted req) ->
        secure_filename unicode_nfkd (report_filename form') = name)
  /\ (forall last first d,
        patient_last_name (posted req) = Some last ->
        patient_first_name (posted req) = Some first ->
        patient_dob (posted req) = Parsed d ->
        Forall (fun c => is_ascii_letter c = true) last ->
        Forall (fun c => is_ascii_letter c = true) first ->
        name = u "CR_" ++ last ++ u "_" ++ first ++ u "_" ++ date_str d ++ u ".pdf")
  /\ secure_filename unicode_nfkd (u "CR_Smith_Jane_2020-01-01.pdf")
     = u "CR_Smith_Jane_2020-01-01.pdf".
Proof.
  intros name.
  pose proof (secure_filename_chars (report_filename (posted req))) as Hchars.
  fold name in Hchars.
  split; [|split; [|split]].
  - eexists. split; [|split].
    + rewrite (index_accepts req Hpost Hvalid).
      unfold serve, generate_pdf. rewrite Hlogo. fold name.
      unfold bind at 1. unfold save, write_file at 1. rewrite Hrender.
      unfold bind at 1. unfold write_pdf. rewrite Hpdf.
      unfold write_file at 1. unfold send_file, bind, read_file, ret.
      rewrite lookup_insert_eq.
      rewrite (basename_upload name (filename_char_no_slash _ Hchars)).
      reflexivity.
    + apply lookup_insert_eq.
    + unfold name. rewrite report_path_location. reflexivity.
  - intros form' Hl Hf Hd. unfold name, report_filename.
    rewrite Hl, Hf, Hd. reflexivity.
  - intros last first d Hl Hf Hd Hlast Hfirst. unfold name, report_filename.
    rewrite Hl, Hf, Hd. apply report_name_secure; assumption.
  - vm_compute. reflexivity.
Qed.

(** C2 as stated fails for a name with a space, which the
    name fields accept: for last name "Van Der" the report is not named
    "CR_Van Der_Jane_2020-01-01.pdf" but "CR_Van_Der_Jane_2020-01-01.pdf". *)
Lemma C2_space_counterexample :
  field_validate patient_last_name_validators (Some (u "Van Der")) [] = inr []
  /\ (forall nfkd : char -> str,
        basename (path_join UPLOAD_FOLDER
          (secure_filename nfkd
             (u "CR_" ++ u "Van Der" ++ u "_" ++ u "Jane" ++ u "_"
                ++ date_str (mkdate 2020 1 1) ++ u ".pdf")))
        = u "CR_Van_Der_Jane_2020-01-01.pdf")
  /\ ~ (forall (nfkd : char -> str) (last first : str) (d : date),
          basename (path_join UPLOAD_FOLDER
            (secure_filename nfkd
               (u "CR_" ++ last ++ u "_" ++ first ++ u "_" ++ date_str d ++ u ".pdf")))
          = u "CR_" ++ last ++ u "_" ++ first ++ u "_" ++ date_str d ++ u ".pdf").
Proof.
  split; [vm_compute; reflexivity|]. split; [intros nfkd; vm_compute; reflexivity|].
  intros H.
  specialize (H (fun _ => []) (u "Van Der") (u "Jane") (mkdate 2020 1 1)).
  vm_compute in H. discriminate.
Qed.

(** ** Where the logo is written *)

(** C1.  The logo is written to "uploads/" followed by the file name as
    submitted, with no sanitising: on a valid submission whose logo is named
    "../evil.png" the bytes end up at "evil.png" in the application root,
    outside the upload directory, whatever happens to the report. *)
Theorem C1_logo_written_outside_upload_dir (req : request)
    (fs : gmap location bytes) (logo : FileStorage)
    (Hpost : method req = POST)
    (Hvalid : form_errors_ (clock_today req) (csrf_error req) (posted req) = inr [])
    (Hlogo : clinic_logo (posted req) = Some logo)
    (Hname : filename logo = u "../evil.png") :
  resolve (u "uploads/" ++ filename logo) = (false, [u "evil.png"])
  /\ within upload_dir (resolve (u "uploads/" ++ filename logo)) = false
  /\ exists r fs',
       serve (index_ req) fs = (r, fs')
       /\ fs' !! resolve (u "uploads/" ++ filename logo) = Some (stream logo).
Proof.
  rewrite Hname.
  change (resolve (u "uploads/" ++ u "../evil.png"))
    with ((false, [u "evil.png"]) : location).
  split; [reflexivity|]. split; [reflexivity|].
  rewrite (index_accepts req Hpost Hvalid).
  unfold serve, generate_pdf. rewrite Hlogo, Hname.
  change (resolve (u "uploads/" ++ u "../evil.png"))
    with ((false, [u "evil.png"]) : location).
  unfold bind at 1. unfold save, write_file at 1.
  change (resolve (u "uploads/" ++ u "../evil.png"))
    with ((false, [u "evil.png"]) : location).
  destruct (render_report _ _ _ _) as [e|html].
  { do 2 eexists. split; [reflexivity | apply lookup_insert_eq]. }
  unfold bind at 1. unfold write_pdf.
  destruct (weasyprint html _) as [e|pdf].
  { do 2 eexists. split; [reflexivity | apply lookup_insert_eq]. }
  unfold write_file at 1. unfold send_file, bind, read_file, ret.
  rewrite lookup_insert_eq.
  do 2 eexists. split; [reflexivity|].
  rewrite report_path_location.
  rewrite lookup_insert_ne by discriminate.
  apply lookup_insert_eq.
Qed.

(** ** Further properties of the handlers *)

Lemma templates_dir_plain : plain (u "templates").
Proof.
  repeat split; try discriminate.
  cbn. intros H. repeat destruct H as [H|H]; try discriminate H. exact H.
Qed.


(** [get_template] has the protection of [send_report]: a file it answers
    with lies within "templates", and a path that resolves outside gets
    404. *)
Theorem get_template_stays_within_templates (path : str)
    (fs : gmap location bytes) :
  (serve (get_template path) fs = (NotFound, fs)
   \/ exists p body,
        safe_join (u "templates") path = Some p
        /\ within (u "templates") (resolve p) = true
        /\ fs !! resolve p = Some body
        /\ serve (get_template path) fs = (FileResponse body, fs))
  /\ (within (u "templates") (resolve (u "templates/" ++ path)) = false ->
      serve (get_template path) fs = (NotFound, fs)).
Proof.
  change (u "templates/" ++ path) with (u "templates" ++ slash :: path).
  unfold get_template.
  destruct (safe_join_within (u "templates") templates_dir_plain path)
    as [Hn | (p & Hs & Heq & Hin)].
  - rewrite (send_from_directory_none _ _ fs Hn). auto.
  - rewrite (send_from_directory_some _ _ p fs Hs). split.
    + destruct (fs !! resolve p) as [body|] eqn:E; [right | left; reflexivity].
      exists p, body. auto.
    + intros Hout. rewrite Heq in Hin. congruence.
Qed.

(** A GET of the form page shows the form without errors and writes
    nothing. *)
Theorem index_get_shows_empty_form (form : ConsultationForm)
    (csrf : option string) (url addr now : str) (today : date)
    (fs : gmap location bytes) :
  serve (index_ {| method := GET; posted := form; csrf_error := csrf;
                   base_url := url; remote_addr := addr;
                   clock_today := today; clock_now := now |}) fs
  = (FormPage [], fs).
Proof. reflexivity. Qed.


(** ** Which submissions are accepted *)









(** No field ever shows two messages.  A text field that is missing or
    blank shows "This field is required." and nothing else: [DataRequired]
    stops the chain, so the validator after it is not run on such data (not
    even one that would raise on it), and what was recorded before is wiped. *)
Theorem each_field_reports_at_most_one_error (today : date)
    (csrf : option string) (form : ConsultationForm) :
  Forall (fun r => exists errors, snd r = inr errors /\ (length errors <= 1)%nat)
         (field_errors_ today csrf form)
  /\ (forall (rest : list (validator (option str))) (data : option str)
             (recorded : list string),
        blank data = true ->
        field_validate (DataRequired_str :: rest) data recorded
        = inr ["This field is required."%string]).
Proof.
  split.
  - unfold field_errors, clinic_name_validators, physician_name_validators,
      patient_contact_validators, patient_first_name_validators,
      patient_last_name_validators, physician_contact_validators,
      chief_complaint_validators, consultation_note_validators.
    rewrite !required_field_errors, !contact_field_errors, logo_field_errors,
      dob_field_errors, !name_field_errors by discriminate.
    repeat constructor; cbn [snd]; eexists; (split; [reflexivity|]);
      repeat match goal with
             | |- context [if ?b then _ else _] => destruct b
             | |- context [match ?x with _ => _ end] => destruct x
             end; cbn [length]; lia.
  - intros rest data recorded Hblank. unfold field_validate.
    cbn [run_validation_chain]. rewrite DataRequired_str_spec.
    unfold blank in Hblank. destruct data as [s|]; [rewrite Hblank|]; reflexivity.
Qed.

(** ** What is stored can be fetched *)

Lemma normpath_fold_plain (n : N) (comps stack : list str) :
  Forall plain comps ->
  fold_left (normpath_step n) comps stack = rev comps ++ stack.
Proof.
  intros Hall. revert stack.
  induction Hall as [|c comps Hc _ IH]; intros stack; [reflexivity|].
  cbn [fold_left rev]. rewrite normpath_step_plain by exact Hc.
  rewrite IH, <- app_assoc. reflexivity.
Qed.

Lemma join_with_cons (sep : str) (c : str) (cs : list str) :
  join_with sep (c :: cs)
  = c ++ match cs with
         | [] => []
         | _ => sep ++ join_with sep cs
         end.
Proof. destruct cs; cbn [join_with]; [rewrite app_nil_r|]; reflexivity. Qed.

(** A path that begins with a proper name is not absolute, is not [..] and
    does not begin with [../]. *)
Lemma plain_prefix_checks (c rest : str) :
  plain c -> rest = [] \/ (exists r, rest = slash :: r) ->
  startswith [slash] (c ++ rest) = false
  /\ str_eqb (c ++ rest) dotdot = false
  /\ startswith (dotdot ++ [slash]) (c ++ rest) = false.
Proof.
  intros (H0 & H1 & H2 & Hs) Hrest.
  destruct c as [|a c]; [congruence|].
  assert (Ha : a <> slash) by (intros ->; apply Hs; left; reflexivity).
  split; [|split].
  - cbn [app startswith]. rewrite (proj2 (N.eqb_neq slash a)) by congruence.
    reflexivity.
  - apply str_eqb_neq. intros H. cbn [app] in H. injection H as -> H.
    destruct c as [|b c].
    + destruct Hrest as [-> | (r & ->)]; discriminate H.
    + cbn [app] in H. injection H as -> H.
      apply app_eq_nil in H as [-> _]. apply H2. reflexivity.
  - cbn [app dotdot startswith].
    destruct (N.eqb_spec 46 a) as [<-|_]; [|reflexivity]. cbn [andb].
    destruct c as [|b c]; [exfalso; apply H1; reflexivity|].
    cbn [app]. destruct (N.eqb_spec 46 b) as [<-|_]; [|reflexivity]. cbn [andb].
    destruct c as [|d c]; [exfalso; apply H2; reflexivity|].
    cbn [app]. rewrite (proj2 (N.eqb_neq slash d)); [reflexivity|].
    intros <-. apply Hs. right. right. left. reflexivity.
Qed.

(** [safe_join] accepts a path of proper names as it is, and the path
    resolves to those names below the directory. *)
Lemma safe_join_plain (dir : str) (comps : list str) :
  plain dir -> comps <> [] -> Forall plain comps ->
  safe_join dir (join_with [slash] comps)
    = Some (dir ++ slash :: join_with [slash] comps)
  /\ resolve (dir ++ slash :: join_with [slash] comps) = (false, dir :: comps).
Proof.
  intros Hdir Hne Hall.
  assert (Hslash : Forall (fun w => ~ In slash w) comps).
  { eapply Forall_impl; [exact Hall|]. intros ? (_ & _ & _ & ?). assumption. }
  split.
  - destruct comps as [|c cs]; [congruence|].
    inversion Hall as [|? ? Hc Hcs]; subst.
    assert (Hchecks :
      startswith [slash] (join_with [slash] (c :: cs)) = false
      /\ str_eqb (join_with [slash] (c :: cs)) dotdot = false
      /\ startswith (dotdot ++ [slash]) (join_with [slash] (c :: cs)) = false).
    { rewrite join_with_cons. apply plain_prefix_checks; [exact Hc|].
      destruct cs; [left; reflexivity | right; eexists; reflexivity]. }
    destruct Hchecks as (Ck1 & Ck2 & Ck3).
    pose proof (split_on_join slash (c :: cs) Hne Hslash) as Hsplit.
    pose proof (join_with_nonempty [slash] c cs (proj1 Hc)) as Hjoin.
    destruct (join_with [slash] (c :: cs)) as [|a path] eqn:Ej; [congruence|].
    assert (Ha : a <> slash).
    { intros ->. cbn [startswith] in Ck1. rewrite N.eqb_refl in Ck1.
      discriminate. }
    assert (Hnorm : normpath (a :: path) = a :: path).
    { rewrite normpath_relative by exact Ha.
      rewrite Hsplit, normpath_fold_plain by exact Hall.
      rewrite app_nil_r, rev_involutive, Ej. reflexivity. }
    unfold safe_join. rewrite Hnorm, Ck1, Ck2, Ck3. cbn [orb].
    replace (match dir with [] => dot | _ :: _ => dir end) with dir
      by (destruct dir; [destruct Hdir; congruence | reflexivity]).
    rewrite (path_join_dir dir Hdir (a :: path) Ck1). reflexivity.
  - rewrite (resolve_below_dir dir Hdir).
    rewrite (split_on_join slash comps Hne Hslash).
    rewrite resolve_fold_plain by exact Hall.
    rewrite rev_app_distr, rev_involutive. reflexivity.
Qed.

(** A file stored in the upload directory, or in a directory below it, is
    served under its path: the names from the upload directory down to the
    file, joined by slashes. *)
Theorem stored_upload_is_served (comps : list str) (fs : gmap location bytes)
    (body : bytes)
    (Hcomps : comps <> [])
    (Hplain : Forall plain comps)
    (Hstored : fs !! ((false, u "uploads" :: comps) : location) = Some body) :
  serve (send_report (join_with [slash] comps)) fs = (FileResponse body, fs).
Proof.
  destruct (safe_join_plain (u "uploads") comps upload_dir_plain Hcomps Hplain)
    as [Hjoin Hres].
  unfold send_report. rewrite (send_from_directory_some _ _ _ fs Hjoin).
  rewrite Hres, Hstored. reflexivity.
Qed.

(** What a valid submission leaves when rendering succeeds. *)
Lemma index_success (req : request) (fs : gmap location bytes)
    (logo : FileStorage) (html : str) (pdf : bytes) :
  method req = POST ->
  form_errors_ (clock_today req) (csrf_error req) (posted req) = inr [] ->
  clinic_logo (posted req) = Some logo ->
  render_report (posted req)
    (base_url req ++ u "/" ++ u "uploads/" ++ filename logo)
    (clock_now req) (remote_addr req) = inr html ->
  weasyprint html (<[resolve (u "uploads/" ++ filename logo) := stream logo]> fs)
    = inr pdf ->
  let name := secure_filename unicode_nfkd (report_filename (posted req)) in
  serve (index_ req) fs
  = (Attachment name pdf,
     <[resolve (path_join UPLOAD_FOLDER name) := pdf]>
       (<[resolve (u "uploads/" ++ filename logo) := stream logo]> fs)).
Proof.
  intros Hpost Hvalid Hlogo Hrender Hpdf name.
  pose proof (secure_filename_chars (report_filename (posted req))) as Hchars.
  fold name in Hchars.
  rewrite (index_accepts req Hpost Hvalid).
  unfold serve, generate_pdf. rewrite Hlogo. fold name.
  unfold bind at 1. unfold save, write_file at 1. rewrite Hrender.
  unfold bind at 1. unfold write_pdf. rewrite Hpdf.
  unfold write_file at 1. unfold send_file, bind, read_file, ret.
  rewrite lookup_insert_eq.
  rewrite (basename_upload name (filename_char_no_slash _ Hchars)).
  reflexivity.
Qed.

(** [safe_join] accepts a sanitised name, and joins it as [generate_pdf]
    does. *)
Lemma safe_join_secure_filename (name : str) :
  exists p,
    safe_join (u "uploads") (secure_filename unicode_nfkd name) = Some p
    /\ resolve p
       = resolve (path_join UPLOAD_FOLDER (secure_filename unicode_nfkd name)).
Proof.
  pose proof (secure_filename_chars name) as Hchars.
  pose proof (secure_filename_head name) as Hhead.
  pose proof (filename_char_no_slash _ Hchars) as Hslash.
  rewrite report_path_location.
  destruct (secure_filename unicode_nfkd name) as [|c t] eqn:E.
  - eexists. split; reflexivity.
  - specialize (Hhead c t eq_refl).
    assert (Hplain : Forall plain [c :: t]).
    { constructor; [|constructor]. repeat split; try discriminate; try exact Hslash.
      + intros [= -> _]. discriminate Hhead.
      + intros [= -> _]. discriminate Hhead. }
    destruct (safe_join_plain (u "uploads") [c :: t] upload_dir_plain
                ltac:(discriminate) Hplain) as [Hjoin Hres].
    cbn [join_with] in Hjoin, Hres.
    eexists. split; [exact Hjoin | exact Hres].
Qed.

(** A report that was generated can be fetched again: after a successful
    submission, GET /uploads/<name>, with the name of the attachment, answers
    with the same PDF. *)
Theorem generated_report_can_be_fetched (req : request)
    (fs : gmap location bytes) (logo : FileStorage) (html : str) (pdf : bytes)
    (Hpost : method req = POST)
    (Hvalid : form_errors_ (clock_today req) (csrf_error req) (posted req) = inr [])
    (Hlogo : clinic_logo (posted req) = Some logo)
    (Hrender : render_report (posted req)
                 (base_url req ++ u "/" ++ u "uploads/" ++ filename logo)
                 (clock_now req) (remote_addr req) = inr html)
    (Hpdf : weasyprint html
              (<[resolve (u "uploads/" ++ filename logo) := stream logo]> fs)
            = inr pdf) :
  exists name fs',
    serve (index_ req) fs = (Attachment name pdf, fs')
    /\ serve (send_report name) fs' = (FileResponse pdf, fs').
Proof.
  pose proof (index_success req fs logo html pdf Hpost Hvalid Hlogo Hrender Hpdf)
    as Hserve. cbv zeta in Hserve.
  destruct (safe_join_secure_filename (report_filename (posted req)))
    as (p & Hjoin & Hres).
  do 2 eexists. split; [exact Hserve|].
  unfold send_report. rewrite (send_from_directory_some _ _ p _ Hjoin).
  rewrite Hres, lookup_insert_eq. reflexivity.
Qed.



(** ** Which patients share a report name *)







(** Splitting at the first separator. *)
Lemma split_at_sep (sep : char) (x1 x2 r1 r2 : str) :
  ~ In sep x1 -> ~ In sep x2 ->
  x1 ++ sep :: r1 = x2 ++ sep :: r2 -> x1 = x2 /\ r1 = r2.
Proof.
  revert x2. induction x1 as [|a x1 IH]; intros [|b x2] H1 H2 H; cbn [app] in H.
  - injection H as ->. auto.
  - injection H as <- _. exfalso. apply H2. left. reflexivity.
  - injection H as -> _. exfalso. apply H1. left. reflexivity.
  - injection H as -> H.
    destruct (IH x2) as [-> ->]; auto.
    + intros Hin. apply H1. right. exact Hin.
    + intros Hin. apply H2. right. exact Hin.
Qed.

Lemma digits_uint_uint_digits (d : Decimal.uint) :
  digits_uint (uint_digits d) = d.
Proof.
  induction d; cbn [uint_digits digits_uint]; rewrite ?IHd; reflexivity.
Qed.

(** A zero-padded number reads back as the number. *)
Lemma digits_value_zero_padded (width : nat) (n : N) :
  digits_value (zero_padded width n) = n.
Proof.
  unfold zero_padded, decimal, digits_value.
  induction (width - length (uint_digits (N.to_uint n)))%nat as [|k IH].
  - cbn [repeat app]. rewrite digits_uint_uint_digits.
    apply DecimalN.Unsigned.of_to.
  - exact IH.
Qed.

Lemma uint_digits_digits (d : Decimal.uint) :
  Forall (fun c => is_ascii_digit c = true) (uint_digits d).
Proof. induction d; cbn [uint_digits]; constructor; (reflexivity || assumption). Qed.

Lemma zero_padded_no_hyphen (width : nat) (n : N) : ~ In 45 (zero_padded width n).
Proof.
  assert (H : Forall (fun c => is_ascii_digit c = true) (zero_padded width n)).
  { unfold zero_padded, decimal. apply Forall_app. split.
    - induction (width - _)%nat; cbn [repeat]; constructor; (reflexivity || assumption).
    - apply uint_digits_digits. }
  intros Hin. rewrite List.Forall_forall in H. specialize (H 45 Hin).
  vm_compute in H. discriminate.
Qed.

(** Two dates print alike only when they are the same date. *)
Lemma date_str_inj (d1 d2 : date) : date_str d1 = date_str d2 -> d1 = d2.
Proof.
  unfold date_str. intros H.
  change (u "-") with [45] in H. cbn [app] in H.
  apply split_at_sep in H as [Hy H]; try apply zero_padded_no_hyphen.
  apply split_at_sep in H as [Hm Hd]; try apply zero_padded_no_hyphen.
  apply (f_equal digits_value) in Hy, Hm, Hd.
  rewrite !digits_value_zero_padded in Hy, Hm, Hd.
  destruct d1, d2. cbn [year month day] in *. congruence.
Qed.

Lemma letters_no_underscore (s : str) :
  Forall (fun c => is_ascii_letter c = true) s -> ~ In 95 s.
Proof.
  intros H Hin. rewrite List.Forall_forall in H. specialize (H 95 Hin).
  vm_compute in H. discriminate.
Qed.

(** Patients whose names consist of ASCII letters only get a report name of
    their own: two submissions with such names that differ in the last name,
    the first name or the date of birth get different report names. *)
Theorem letters_only_names_get_their_own_report
    (form1 form2 : ConsultationForm) (last1 first1 last2 first2 : str)
    (d1 d2 : date)
    (Hlast1 : patient_last_name form1 = Some last1)
    (Hfirst1 : patient_first_name form1 = Some first1)
    (Hdob1 : patient_dob form1 = Parsed d1)
    (Hlast2 : patient_last_name form2 = Some last2)
    (Hfirst2 : patient_first_name form2 = Some first2)
    (Hdob2 : patient_dob form2 = Parsed d2)
    (Hl1 : Forall (fun c => is_ascii_letter c = true) last1)
    (Hf1 : Forall (fun c => is_ascii_letter c = true) first1)
    (Hl2 : Forall (fun c => is_ascii_letter c = true) last2)
    (Hf2 : Forall (fun c => is_ascii_letter c = true) first2)
    (Hother : last1 <> last2 \/ first1 <> first2 \/ d1 <> d2) :
  secure_filename unicode_nfkd (report_filename form1)
  <> secure_filename unicode_nfkd (report_filename form2).
Proof.
  intros Hsame. unfold report_filename in Hsame.
  rewrite Hlast1, Hfirst1, Hdob1, Hlast2, Hfirst2, Hdob2 in Hsame.
  change (format_str (Some last1)) with last1 in Hsame.
  change (format_str (Some first1)) with first1 in Hsame.
  change (format_str (Some last2)) with last2 in Hsame.
  change (format_str (Some first2)) with first2 in Hsame.
  change (format_date (date_data (Parsed d1))) with (date_str d1) in Hsame.
  change (format_date (date_data (Parsed d2))) with (date_str d2) in Hsame.
  rewrite !report_name_secure in Hsame by assumption.
  apply app_inv_head in Hsame.
  change (u "_") with [95] in Hsame. cbn [app] in Hsame.
  apply split_at_sep in Hsame as [Hl Hsame];
    try (apply letters_no_underscore; assumption).
  apply split_at_sep in Hsame as [Hf Hsame];
    try (apply letters_no_underscore; assumption).
  apply app_inv_tail in Hsame. apply date_str_inj in Hsame.
  destruct Hother as [H | [H | H]]; contradiction.
Qed.

End Properties.

(** ** The theorems at a sample submission *)

Lemma C6_name_fields_reject_other_characters_witness :
  exists errs,
    serve (index sample_nfkd sample_lower sample_render sample_pdf_engine
             (sample_request (sample_form (u "John123") (u "logo.png"))))
          ∅
    = (FormPage errs, ∅)
    /\ In ("physician_name"%string,
           ["Physician name must contain characters only."%string]) errs.
Proof.
  refine (proj1 (proj2 (proj2
    (C6_name_fields_reject_other_characters
       sample_nfkd sample_lower sample_render sample_pdf_engine
       (sample_request (sample_form (u "John123") (u "logo.png"))) ∅
       (u "John123") eq_refl _))) eq_refl).
  exists 49. split; [simpl; tauto | split; reflexivity].
Defined.

Lemma C7_logo_extension_checked_before_any_write_witness :
  exists errs msg,
    serve (index sample_nfkd sample_lower sample_render sample_pdf_engine
             (sample_request (sample_form (u "John Doe") (u "scan.gif"))))
          ∅
    = (FormPage errs, ∅)
    /\ In ("clinic_logo"%string, [msg]) errs.
Proof.
  refine (proj1
    (C7_logo_extension_checked_before_any_write
       sample_nfkd sample_lower sample_render sample_pdf_engine
       (sample_request (sample_form (u "John Doe") (u "scan.gif"))) ∅
       eq_refl _)).
  right. eexists. split; [reflexivity | vm_compute; reflexivity].
Defined.

Lemma C10_logo_persisted_when_pdf_generation_fails_witness :
  let fs1 : gmap location bytes :=
    <[resolve (u "uploads/logo.png") := sample_logo_bytes]> ∅ in
  serve (index sample_nfkd sample_lower sample_render failing_pdf_engine
           (sample_request (sample_form (u "John Doe") (u "logo.png"))))
        ∅
  = (InternalServerError RenderingError, fs1)
  /\ fs1 !! resolve (u "uploads/logo.png") = Some sample_logo_bytes.
Proof.
  refine (C10_logo_persisted_when_pdf_generation_fails
            sample_nfkd sample_lower sample_render failing_pdf_engine
            (sample_request (sample_form (u "John Doe") (u "logo.png"))) ∅
            {| filename := u "logo.png"; stream := sample_logo_bytes |}
            RenderingError eq_refl _ eq_refl _).
  - vm_compute. reflexivity.
  - right. eexists. split; reflexivity.
Defined.

Lemma C2_report_filename_sanitised_witness :
  exists fs',
    serve (index sample_nfkd sample_lower sample_render sample_pdf_engine
             (sample_request (sample_form (u "John Doe") (u "logo.png"))))
          ∅
    = (Attachment (u "CR_Smith_Jane_2020-01-01.pdf") sample_pdf_bytes, fs')
    /\ fs' !! resolve (u "uploads/CR_Smith_Jane_2020-01-01.pdf")
       = Some sample_pdf_bytes
    /\ within upload_dir (resolve (u "uploads/CR_Smith_Jane_2020-01-01.pdf"))
       = true.
Proof.
  refine (proj1
    (C2_report_filename_sanitised
       sample_nfkd sample_lower sample_render sample_pdf_engine
       (sample_request (sample_form (u "John Doe") (u "logo.png"))) ∅
       {| filename := u "logo.png"; stream := sample_logo_bytes |}
       (sample_html (u "http://localhost:5000//uploads/logo.png"))
       sample_pdf_bytes eq_refl _ eq_refl eq_refl eq_refl)).
  vm_compute. reflexivity.
Defined.

Lemma C1_logo_written_outside_upload_dir_witness :
  within upload_dir (resolve (u "uploads/" ++ u "../evil.png")) = false
  /\ exists r fs',
       serve (index sample_nfkd sample_lower sample_render sample_pdf_engine
                (sample_request (sample_form (u "John Doe") (u "../evil.png"))))
             ∅
       = (r, fs')
       /\ fs' !! resolve (u "uploads/" ++ u "../evil.png") = Some sample_logo_bytes.
Proof.
  refine (proj2
    (C1_logo_written_outside_upload_dir
       sample_nfkd sample_lower sample_render sample_pdf_engine
       (sample_request (sample_form (u "John Doe") (u "../evil.png"))) ∅
       {| filename := u "../evil.png"; stream := sample_logo_bytes |}
       eq_refl _ eq_refl eq_refl)).
  vm_compute. reflexivity.
Defined.

Lemma C5_numbers_only_passes_isdigit_witness :
  validate_numbers_only (Some (u "5550100")) = Passed
  /\ validate_numbers_only (Some (u "555-0100")) <> Passed.
Proof.
  split.
  - refine (proj1 (proj2 (proj2 (proj2 (proj2 (proj2
      (C5_numbers_only_passes_isdigit (u "5550100"))))))) _ _).
    + discriminate.
    + apply forallb_Forall. reflexivity.
  - refine (proj1 (proj2 (proj2 (proj2
      (C5_numbers_only_passes_isdigit (u "555-0100"))))) _).
    exists 45. split; [simpl; tauto | reflexivity].
Defined.

Lemma C8_send_report_stays_within_upload_dir_witness :
  serve (send_report (u "reports/../../app.py")) ∅ = (NotFound, ∅).
Proof.
  refine (proj1 (proj2
    (C8_send_report_stays_within_upload_dir (u "reports/../../app.py") ∅)) _).
  reflexivity.
Defined.

Lemma C4_invalid_format_error_not_for_unparseable_input_witness :
  exists errs,
    serve (index sample_nfkd sample_lower sample_render sample_pdf_engine
             (sample_request
                (sample_form_with (u "John Doe") (u "logo.png")
                   (NotADate (u "31/12/2020")))))
          ∅
    = (FormPage errs, ∅)
    /\ In ("patient_dob"%string, ["This field is required."%string]) errs.
Proof.
  exact (proj2 (proj2 (proj2
    (C4_invalid_format_error_not_for_unparseable_input
       sample_nfkd sample_lower sample_render sample_pdf_engine
       (mkdate 2026 11 4) None (u "31/12/2020")
       (sample_request
          (sample_form_with (u "John Doe") (u "logo.png")
             (NotADate (u "31/12/2020"))))
       ∅))) eq_refl eq_refl).
Defined.



Lemma stored_upload_is_served_witness :
  let fs : gmap location bytes :=
    <[(false, [u "uploads"; u "2026"; u "scan.png"]) := sample_logo_bytes]> ∅ in
  serve (send_report (u "2026/scan.png")) fs = (FileResponse sample_logo_bytes, fs).
Proof.
  intros fs.
  refine (stored_upload_is_served [u "2026"; u "scan.png"] fs sample_logo_bytes
            _ _ _).
  - discriminate.
  - repeat constructor; try discriminate;
      (cbn; intros H; repeat destruct H as [H|H]; try discriminate H; exact H).
  - apply lookup_insert_eq.
Defined.

Lemma generated_report_can_be_fetched_witness :
  exists name fs',
    serve (index sample_nfkd sample_lower sample_render sample_pdf_engine
             (sample_request (sample_form (u "John Doe") (u "logo.png"))))
          ∅
    = (Attachment name sample_pdf_bytes, fs')
    /\ serve (send_report name) fs' = (FileResponse sample_pdf_bytes, fs').
Proof.
  refine (generated_report_can_be_fetched
            sample_nfkd sample_lower sample_render sample_pdf_engine
            (sample_request (sample_form (u "John Doe") (u "logo.png"))) ∅
            {| filename := u "logo.png"; stream := sample_logo_bytes |}
            (sample_html (u "http://localhost:5000//uploads/logo.png"))
            sample_pdf_bytes eq_refl _ eq_refl eq_refl eq_refl).
  vm_compute. reflexivity.
Defined.



Lemma letters_only_names_get_their_own_report_witness :
  secure_filename sample_nfkd
    (report_filename
       (sample_patient_form (u "Smith") (u "Jane") (mkdate 2020 1 1)))
  <> secure_filename sample_nfkd
       (report_filename
          (sample_patient_form (u "Smith") (u "Joan") (mkdate 2020 1 1))).
Proof.
  refine (letters_only_names_get_their_own_report sample_nfkd
            (sample_patient_form (u "Smith") (u "Jane") (mkdate 2020 1 1))
            (sample_patient_form (u "Smith") (u "Joan") (mkdate 2020 1 1))
            (u "Smith") (u "Jane") (u "Smith") (u "Joan")
            (mkdate 2020 1 1) (mkdate 2020 1 1)
            eq_refl eq_refl eq_refl eq_refl eq_refl eq_refl _ _ _ _ _);
    try (repeat constructor; fail).
  right. left. discriminate.
Defined.
